(** * VoxelTerrainActor: terrain paging and per-material mesh partition

    A shallow embedding of [Source/VoxelTerrain/Private/VoxelTerrainActor.cpp]:

    - [VoxelTerrainPager::pageIn] / [pageOut]: the three nested loops that fill
      a chunk from the noise graph, with the material decision of every voxel;
    - [AVoxelTerrainActor::BeginPlay]: the loop over materials and, inside it,
      the loop over the index triples of the decoded mesh that builds one
      procedural mesh section per material.

    The translation unit calls into PolyVox, the Accidental Noise Library and
    the engine; none of them is part of the sources.  What the file needs from
    them is gathered in two interfaces, [Externals] (noise executor and
    [FMath]) and [Geometry] (vector types), so that the loops themselves are
    modelled as written.

    Integers are [Z].  Unsigned quantities carry their wrap-around ([u32],
    [size_t], [uint8]); signed [int] arithmetic is plain [Z] arithmetic, which
    covers every execution without signed overflow (overflow being undefined
    in C++).  Scalars returned by the noise executor are binary64 values. *)

From Stdlib Require Import ZArith Lia Floats.
From stdpp Require Import base option list list_numbers gmap.

Open Scope Z_scope.

(** 1.95 is read as the nearest binary64 value, as the compiler reads it. *)
#[local] Set Warnings "-inexact-float".

(* ===================================================================== *)
(** * Machine integers *)

Definition uint8 (v : Z) : Z := v mod 2 ^ 8.
Definition u32 (v : Z) : Z := v mod 2 ^ 32.
(** [size_t] on the 64-bit targets of the engine. *)
Definition size_t (v : Z) : Z := v mod 2 ^ 64.

(* ===================================================================== *)
(** * Voxels, regions and chunks *)

(** Modelled from the spec: the voxel type [MaterialDensityPair44] is declared
    by PolyVox, outside the sources; the specification gives it as
    [{ density: uint8, material: uint8 }], zero-initialised, with setters that
    store their argument in the field. *)
Record MaterialDensityPair44 : Type := mkVoxel {
  m_uMaterial : Z;
  m_uDensity : Z
}.

Definition defaultVoxel : MaterialDensityPair44 := mkVoxel 0 0.

Definition setDensity (d : Z) (v : MaterialDensityPair44) : MaterialDensityPair44 :=
  mkVoxel (m_uMaterial v) (uint8 d).

Definition setMaterial (m : Z) (v : MaterialDensityPair44) : MaterialDensityPair44 :=
  mkVoxel (uint8 m) (m_uDensity v).

Definition getMaterial (v : MaterialDensityPair44) : Z := m_uMaterial v.
Definition getDensity (v : MaterialDensityPair44) : Z := m_uDensity v.

(** The material ids listed in the comment of [pageIn]. *)
Definition Air : Z := 0.
Definition Stone : Z := 1.
Definition Dirt : Z := 2.
Definition Grass : Z := 3.
Definition Ore : Z := 4.

(** [PolyVox::Region]: an inclusive box given by its two corners. *)
Record Region : Type := mkRegion {
  getLowerX : Z; getLowerY : Z; getLowerZ : Z;
  getUpperX : Z; getUpperY : Z; getUpperZ : Z
}.

(** Modelled from the spec: a chunk is voxel storage indexed by chunk-local
    coordinates.  It is a finite map from local coordinates to voxels; a
    coordinate that was never set has no entry. *)
Abbreviation Chunk := (gmap (Z * Z * Z) MaterialDensityPair44).

Definition setVoxel (x y z : Z) (v : MaterialDensityPair44) (c : Chunk) : Chunk :=
  <[(x, y, z) := v]> c.

Definition getVoxel (x y z : Z) (c : Chunk) : option MaterialDensityPair44 :=
  c !! (x, y, z).

(* ===================================================================== *)
(** * The noise graph built by [pageIn] *)

Module CKernel.

Inductive BasisTypes : Type := BASIS_VALUE | BASIS_GRADIENT | BASIS_SIMPLEX.
Inductive InterpolationTypes : Type :=
  INTERP_NONE | INTERP_LINEAR | INTERP_HERMITE | INTERP_QUINTIC.

(** One constructor per kernel call made by [pageIn]; an instruction index
    stands for the sub-graph it was built from. *)
Inductive CInstructionIndex : Type :=
| constant (c : float)
| z
| subtract (a b : CInstructionIndex)
| divide (a b : CInstructionIndex)
| clamp (v lo hi : CInstructionIndex)
| select (low high control threshold falloff : CInstructionIndex)
| simplefBm (basis : BasisTypes) (interp : InterpolationTypes)
            (octaves : Z) (freq : float) (seed : Z)
| simpleRidgedMultifractal (basis : BasisTypes) (interp : InterpolationTypes)
            (octaves : Z) (freq : float) (seed : Z)
| scaleOffset (src : CInstructionIndex) (scale offset : float)
| scaleZ (src scale : CInstructionIndex)
| translateZ (src tz : CInstructionIndex).

End CKernel.

Abbreviation CInstructionIndex := CKernel.CInstructionIndex.

(** What [pageIn] calls but the sources do not define. *)
Class Externals : Type := {
  (** [CNoiseExecutor::evaluateScalar(x, y, z, index)]; the [int] loop
      counters convert to [double] without loss. *)
  evaluateScalar : Z -> Z -> Z -> CInstructionIndex -> float;
  (** [FMath::FloorToInt], including the narrowing of its [double] argument. *)
  FloorToInt : float -> Z;
  (** Rounding to single precision, for arithmetic done on [float] members. *)
  single : float -> float
}.

(** The members of [VoxelTerrainPager], set once by its constructor. *)
Record VoxelTerrainPager : Type := mkPager {
  Seed : Z;
  NoiseOctaves : Z;
  NoiseFrequency : float;
  NoiseScale : float;
  NoiseOffset : float;
  TerrainHeight : float
}.

(** The three instruction indices [pageIn] evaluates. *)
Record TerrainGraph : Type := mkGraph {
  PerturbGradient : CInstructionIndex;
  GrassZ : CInstructionIndex;
  OreFractal : CInstructionIndex
}.

Section Paging.
Context `{Externals}.

(** Lines 116-151: the kernel is local to the call and built from the
    members only. *)
Definition buildGraph (p : VoxelTerrainPager) : TerrainGraph :=
  let Zero := CKernel.constant 0 in
  let One := CKernel.constant 1 in
  let VerticalHeight := CKernel.constant (TerrainHeight p) in
  let HalfVerticalHeight := CKernel.constant (single (TerrainHeight p / 2)) in
  let VerticalGradient :=
    CKernel.divide
      (CKernel.clamp (CKernel.subtract VerticalHeight CKernel.z) Zero VerticalHeight)
      VerticalHeight in
  let VerticalSelect :=
    CKernel.select Zero One VerticalGradient (CKernel.constant 0.5) Zero in
  let TerrainFractal :=
    CKernel.simplefBm CKernel.BASIS_SIMPLEX CKernel.INTERP_LINEAR
      (NoiseOctaves p) (NoiseFrequency p) (Seed p) in
  let TerrainScale :=
    CKernel.scaleOffset TerrainFractal (NoiseScale p) (NoiseOffset p) in
  let TerrainZScale := CKernel.scaleZ TerrainScale Zero in
  let PerturbGradient := CKernel.translateZ VerticalSelect TerrainZScale in
  let GrassZ := CKernel.subtract HalfVerticalHeight TerrainZScale in
  let OreFractal :=
    CKernel.simpleRidgedMultifractal CKernel.BASIS_SIMPLEX CKernel.INTERP_LINEAR
      2 (single (5 * NoiseFrequency p)) (Seed p) in
  mkGraph PerturbGradient GrassZ OreFractal.

(** Lines 162-203: the voxel computed for the global coordinate (x, y, z). *)
Definition terrainVoxel (g : TerrainGraph) (x y z : Z) : MaterialDensityPair44 :=
  let EvaluatedNoise := evaluateScalar x y z (PerturbGradient g) in
  let Voxel := defaultVoxel in
  let bSolid := (0.5 <? EvaluatedNoise)%float in
  let Voxel := setDensity (if bSolid then 255 else 0) Voxel in
  let ActualGrassZ := FloorToInt (evaluateScalar x y z (GrassZ g)) in
  let DirtZ := ActualGrassZ - 1 in
  let DirtThickness := 3 in
  if bSolid then
    if ActualGrassZ <=? z then setMaterial 3 Voxel
    else if (z <=? DirtZ) && (DirtZ - DirtThickness <? z) then setMaterial 2 Voxel
    else
      let EvaluatedOreFractal := evaluateScalar x y z (OreFractal g) in
      if (1.95 <? EvaluatedOreFractal)%float then setMaterial 4 Voxel
      else setMaterial 1 Voxel
  else setMaterial 0 Voxel.

(** [for (int i = lo; i <= hi; i++) s = body i s]: the counter takes the
    values lo, lo+1, ..., hi in this order, none when hi < lo. *)
Definition for_upto {S : Type} (lo hi : Z) (body : Z -> S -> S) (s : S) : S :=
  foldl (fun s i => body i s) s (seqZ lo (hi - lo + 1)).

(** Lines 156-211.  The bound of the y loop is [region.getUpperY() / 2],
    an [int] division, which truncates toward zero ([Z.quot]). *)
Definition fillChunk (g : TerrainGraph) (region : Region) (chunk : Chunk) : Chunk :=
  for_upto (getLowerX region) (getUpperX region) (fun x chunk =>
    for_upto (getLowerY region) (getUpperY region ÷ 2) (fun y chunk =>
      for_upto (getLowerZ region) (getUpperZ region) (fun z chunk =>
        setVoxel (x - getLowerX region) (y - getLowerY region) (z - getLowerZ region)
                 (terrainVoxel g x y z) chunk)
      chunk)
    chunk)
  chunk.

(** A member function is a transition on the pager and the chunk it is
    handed. *)
Definition pageIn (region : Region) (st : VoxelTerrainPager * Chunk)
  : VoxelTerrainPager * Chunk :=
  let '(this, chunk) := st in
  (this, fillChunk (buildGraph this) region chunk).

(** Lines 215-217: the body is empty. *)
Definition pageOut (region : Region) (st : VoxelTerrainPager * Chunk)
  : VoxelTerrainPager * Chunk :=
  st.

(** The coordinates the loops of [pageIn] visit. *)
Definition visited (region : Region) (x y z : Z) : Prop :=
  getLowerX region <= x <= getUpperX region /\
  getLowerY region <= y <= getUpperY region ÷ 2 /\
  getLowerZ region <= z <= getUpperZ region.

(** The coordinates of the region: the full inclusive box. *)
Definition inRegion (region : Region) (x y z : Z) : Prop :=
  getLowerX region <= x <= getUpperX region /\
  getLowerY region <= y <= getUpperY region /\
  getLowerZ region <= z <= getUpperZ region.

End Paging.

(* ===================================================================== *)
(** * The decoded mesh and the procedural mesh sections *)

(** The vector types of PolyVox and of the engine, with the operations
    [BeginPlay] applies to them. *)
Class Geometry : Type := {
  Vector3DFloat : Type;
  FVector : Type;
  (** [FPolyVoxVector(v)]: a PolyVox vector seen as an engine vector. *)
  FPolyVoxVector : Vector3DFloat -> FVector;
  (** [a - b] on PolyVox vectors. *)
  vsub : Vector3DFloat -> Vector3DFloat -> Vector3DFloat;
  (** [v * k]. *)
  vscale : FVector -> float -> FVector;
  (** [a ^ b], the cross product. *)
  vcross : FVector -> FVector -> FVector;
  GetSafeNormal : FVector -> FVector
}.

(** Outcome of running code that indexes arrays: a value, an access outside
    the array, or a loop cut short by the iteration budget of the model. *)
Inductive Exec (A : Type) : Type :=
| Done (a : A)
| Fault
| OutOfFuel.
Arguments Done {A} a.
Arguments Fault {A}.
Arguments OutOfFuel {A}.

#[global] Instance Exec_bind : MBind Exec := fun A B f m =>
  match m with
  | Done a => f a
  | Fault => Fault
  | OutOfFuel => OutOfFuel
  end.

(** [l[i]] for an unchecked array access. *)
Definition at_index {A : Type} (l : list A) (i : Z) : Exec A :=
  if i <? 0 then Fault
  else match l !! Z.to_nat i with
       | Some a => Done a
       | None => Fault
       end.

Section Partition.
Context `{Geometry}.

(** [PolyVox::Vertex<MaterialDensityPair44>]. *)
Record Vertex : Type := mkVertex {
  position : Vector3DFloat;
  normal : Vector3DFloat;
  data : MaterialDensityPair44
}.

(** [PolyVox::Mesh]: a vertex array and an index array. *)
Record DecodedMesh : Type := mkMesh {
  m_vecVertices : list Vertex;
  m_vecIndices : list Z
}.

Definition getNoOfIndices (mesh : DecodedMesh) : Z :=
  Z.of_nat (length (m_vecIndices mesh)).
Definition getIndex (mesh : DecodedMesh) (i : Z) : Exec Z :=
  at_index (m_vecIndices mesh) i.
Definition getVertex (mesh : DecodedMesh) (index : Z) : Exec Vertex :=
  at_index (m_vecVertices mesh) index.

Record FProcMeshTangent : Type := mkTangent {
  TangentX : FVector;
  bFlipTangentY : bool
}.

(** The arrays handed to [CreateMeshSection].  [UV0] and [Colors] are
    created empty and never added to; they are left out. *)
Record MeshSection : Type := mkSection {
  Vertices : list FVector;
  Indices : list Z;
  Normals : list FVector;
  Tangents : list FProcMeshTangent
}.

Definition emptySection : MeshSection := mkSection [] [] [] [].

(** [Indices.Add(Vertices.Add(v))]: [TArray::Add] appends and returns the
    position of the new element. *)
Definition addVertex (v : FVector) (s : MeshSection) : MeshSection :=
  let idx := Z.of_nat (length (Vertices s)) in
  mkSection (Vertices s ++ [v]) (Indices s ++ [idx]) (Normals s) (Tangents s).

(** One round of the loop of lines 90-94. *)
Definition addTangentNormal (tx tz : FVector) (s : MeshSection) : MeshSection :=
  mkSection (Vertices s) (Indices s) (Normals s ++ [tz])
            (Tangents s ++ [mkTangent tx false]).

(** Lines 65-95: the body of the loop over index triples, at counter [i]. *)
Definition triangleBody (mesh : DecodedMesh) (Material i : Z) (s : MeshSection)
  : Exec MeshSection :=
  Index ← getIndex mesh (u32 (i + 2));
  Vertex2 ← getVertex mesh Index;
  let TriangleMaterial := getMaterial (data Vertex2) in
  if TriangleMaterial =? Material + 1 then
    let s := addVertex (vscale (FPolyVoxVector (position Vertex2)) 100) s in
    Index ← getIndex mesh (u32 (i + 1));
    Vertex1 ← getVertex mesh Index;
    let s := addVertex (vscale (FPolyVoxVector (position Vertex1)) 100) s in
    Index ← getIndex mesh i;
    Vertex0 ← getVertex mesh Index;
    let s := addVertex (vscale (FPolyVoxVector (position Vertex0)) 100) s in
    let Edge01 := FPolyVoxVector (vsub (position Vertex1) (position Vertex0)) in
    let Edge02 := FPolyVoxVector (vsub (position Vertex2) (position Vertex0)) in
    let TangentX := GetSafeNormal Edge01 in
    let TangentZ := GetSafeNormal (vcross Edge01 Edge02) in
    Done (Nat.iter 3 (addTangentNormal TangentX TangentZ) s)
  else Done s.

(** Line 62: [for (uint32 i = 0; i < getNoOfIndices() - 2; i += 3)].
    [getNoOfIndices()] is a [size_t]; the subtraction and the comparison
    are unsigned, and the counter is 32 bits wide. *)
Fixpoint indexLoop (fuel : nat) (mesh : DecodedMesh) (Material i : Z)
    (s : MeshSection) : Exec MeshSection :=
  match fuel with
  | O => OutOfFuel
  | S fuel' =>
      if i <? size_t (getNoOfIndices mesh - 2) then
        s' ← triangleBody mesh Material i s;
        indexLoop fuel' mesh Material (u32 (i + 3)) s'
      else Done s
  end.

(** [CreateMeshSection(SectionIndex, ...)] on the mesh component: the
    section array grows to hold the index, and the slot is replaced. *)
Definition CreateMeshSection (SectionIndex : Z) (sec : MeshSection)
    (ProcMeshSections : list MeshSection) : list MeshSection :=
  let n := Z.to_nat SectionIndex in
  <[n := sec]>
    (ProcMeshSections ++ replicate (S n - length ProcMeshSections) emptySection).

(** Lines 51-101, for the values of [Material] still to come. *)
Fixpoint materialLoop (fuel : nat) (mesh : DecodedMesh) (materials : list Z)
    (ProcMeshSections : list MeshSection) : Exec (list MeshSection) :=
  match materials with
  | [] => Done ProcMeshSections
  | Material :: rest =>
      sec ← indexLoop fuel mesh Material 0 emptySection;
      materialLoop fuel mesh rest (CreateMeshSection Material sec ProcMeshSections)
  end.

(** The partition of [BeginPlay] (lines 51-101), from the decoded mesh and
    [TerrainMaterials.Num] to the sections of the mesh component.  The
    extraction that yields the decoded mesh (lines 44-46) is PolyVox's, and
    [SetMaterial] only binds a render material to the slot; neither is
    modelled.  Every run of the inner loop may take [fuel] tests of its
    condition. *)
Definition BeginPlay (fuel : nat) (mesh : DecodedMesh) (Num : Z)
  : Exec (list MeshSection) :=
  materialLoop fuel mesh (seqZ 0 Num) [].

(** ** Vocabulary of the specification *)

(** A raw mesh is well formed when its index count is a multiple of three,
    every index refers to a vertex, and every index position is reachable
    through the 32-bit argument of [getIndex]. *)
Definition well_formed (mesh : DecodedMesh) : Prop :=
  (length (m_vecIndices mesh) mod 3 = 0)%nat /\
  Forall (fun ix => 0 <= ix < Z.of_nat (length (m_vecVertices mesh)))
         (m_vecIndices mesh) /\
  Z.of_nat (length (m_vecIndices mesh)) < 2 ^ 32.

Definition noOfTriangles (mesh : DecodedMesh) : nat :=
  (length (m_vecIndices mesh) / 3)%nat.

(** A triangle with its vertices in raw order: first, second, third. *)
Definition Triangle : Type := Vertex * Vertex * Vertex.

Definition vertexAt (mesh : DecodedMesh) (pos : nat) : option Vertex :=
  ix ← m_vecIndices mesh !! pos;
  if ix <? 0 then None else m_vecVertices mesh !! Z.to_nat ix.

(** The [k]-th consecutive index triple, resolved to its vertices. *)
Definition triangleAt (mesh : DecodedMesh) (k : nat) : option Triangle :=
  v0 ← vertexAt mesh (3 * k);
  v1 ← vertexAt mesh (3 * k + 1);
  v2 ← vertexAt mesh (3 * k + 2);
  Some (v0, v1, v2).

(** Triangles [k], [k+1], ..., [k+n-1] of the raw index sequence. *)
Definition trianglesFrom (mesh : DecodedMesh) (k n : nat) : list Triangle :=
  omap (triangleAt mesh) (seq k n).

Definition rawTriangles (mesh : DecodedMesh) : list Triangle :=
  trianglesFrom mesh 0 (noOfTriangles mesh).

(** The material tag of the third vertex of the triple. *)
Definition triangleTag (t : Triangle) : Z := getMaterial (data (snd t)).

(** The raw triangles whose tag is the material id [m], in raw order. *)
Definition taggedWith (m : Z) (ts : list Triangle) : list Triangle :=
  filter (fun t => triangleTag t = m) ts.

Definition worldPosition (v : Vertex) : FVector :=
  vscale (FPolyVoxVector (position v)) 100.

Definition flatTangent (t : Triangle) : FVector :=
  let '(v0, v1, v2) := t in
  GetSafeNormal (FPolyVoxVector (vsub (position v1) (position v0))).

Definition flatNormal (t : Triangle) : FVector :=
  let '(v0, v1, v2) := t in
  GetSafeNormal (vcross (FPolyVoxVector (vsub (position v1) (position v0)))
                        (FPolyVoxVector (vsub (position v2) (position v0)))).

(** What one run of the loop body adds for a resolved triangle. *)
Definition emitTriangle (Material : Z) (s : MeshSection) (t : Triangle)
  : MeshSection :=
  let '(v0, v1, v2) := t in
  if triangleTag t =? Material + 1 then
    Nat.iter 3 (addTangentNormal (flatTangent t) (flatNormal t))
      (addVertex (worldPosition v0)
         (addVertex (worldPosition v1) (addVertex (worldPosition v2) s)))
  else s.

(** The positions one included triangle contributes, in emission order. *)
Definition emittedPositions (t : Triangle) : list FVector :=
  let '(v0, v1, v2) := t in
  [worldPosition v2; worldPosition v1; worldPosition v0].

(** The section the loop body builds for [Material] when it is run over every
    triangle of the mesh in turn. *)
Definition sectionOf (mesh : DecodedMesh) (Material : Z) : MeshSection :=
  foldl (emitTriangle Material) emptySection (rawTriangles mesh).

Definition triangleCount (s : MeshSection) : nat := (length (Indices s) / 3)%nat.

(** Every stored index is a zero-based position of the section's own
    vertex array. *)
Definition indicesValid (s : MeshSection) : Prop :=
  Forall (fun ix => 0 <= ix < Z.of_nat (length (Vertices s))) (Indices s).

End Partition.

(* ===================================================================== *)
(** * Concrete inputs

    An executable instance of each interface and small inputs on which the
    definitions above can be run. *)

(** The floor of a binary64 value, read off its sign, mantissa and exponent. *)
Definition floorZ (f : float) : Z :=
  match Prim2SF f with
  | S754_finite s m e =>
      let v := if s then Z.neg m else Z.pos m in
      if 0 <=? e then v * 2 ^ e else v / 2 ^ (- e)
  | _ => 0
  end.

(** A terrain that is solid below z = 3, with its grass line at 2.5 and ore
    along the column x = 1. *)
Definition sampleExternals : Externals := {|
  evaluateScalar := fun x y z g =>
    match g with
    | CKernel.translateZ _ _ => if z <? 3 then 1%float else 0%float
    | CKernel.subtract _ _ => 2.5%float
    | CKernel.simpleRidgedMultifractal _ _ _ _ _ =>
        if x =? 1 then 2%float else 0%float
    | _ => 0%float
    end;
  FloorToInt := floorZ;
  single := fun f => f
|}.

(** The defaults of the actor's constructor (lines 22-27). *)
Definition defaultPager : VoxelTerrainPager :=
  mkPager 123 3 0.01%float 32%float 0%float 64%float.

Definition sampleRegion : Region := mkRegion 0 0 0 3 3 3.

(** Vectors of three binary64 components, with the usual formulas. *)
Record Vec3 : Type := mkVec3 { vecX : float; vecY : float; vecZ : float }.

Definition sampleGeometry : Geometry := {|
  Vector3DFloat := Vec3;
  FVector := Vec3;
  FPolyVoxVector := fun v => v;
  vsub := fun a b =>
    mkVec3 (vecX a - vecX b)%float (vecY a - vecY b)%float (vecZ a - vecZ b)%float;
  vscale := fun v k => mkVec3 (vecX v * k)%float (vecY v * k)%float (vecZ v * k)%float;
  vcross := fun a b =>
    mkVec3 (vecY a * vecZ b - vecZ a * vecY b)%float
           (vecZ a * vecX b - vecX a * vecZ b)%float
           (vecX a * vecY b - vecY a * vecX b)%float;
  GetSafeNormal := fun v =>
    let sq := (vecX v * vecX v + vecY v * vecY v + vecZ v * vecZ v)%float in
    if (sq <? 0x1p-27)%float then mkVec3 0 0 0
    else let k := (1 / PrimFloat.sqrt sq)%float in
         mkVec3 (vecX v * k)%float (vecY v * k)%float (vecZ v * k)%float
|}.

Definition sampleVertex (x y z : float) (material : Z)
  : Vertex (H := sampleGeometry) :=
  mkVertex (H := sampleGeometry) (mkVec3 x y z) (mkVec3 0 0 1) (mkVoxel material 15).

(** A unit square cut in two triangles; the first ends on a Stone vertex, the
    second on a Dirt vertex. *)
Definition sampleMesh : DecodedMesh (H := sampleGeometry) :=
  mkMesh (H := sampleGeometry)
    [sampleVertex 0 0 0 1; sampleVertex 1 0 0 1;
     sampleVertex 1 1 0 1; sampleVertex 0 1 0 2]
    [0; 1; 2; 0; 2; 3].

(** The mesh of a region without surface: no vertex and no index. *)
Definition emptyMesh : DecodedMesh (H := sampleGeometry) :=
  mkMesh (H := sampleGeometry) [] [].

(* ===================================================================== *)
(** * Paging: what the loops of [pageIn] write *)

Section PagingFacts.
Context `{Externals}.

#[local] Instance visited_dec region x y z : Decision (visited region x y z).
Proof. unfold visited. apply _. Defined.

(** A loop whose rounds either store one fixed value under [key] or leave
    that entry alone. *)
Lemma foldl_lookup_fixed {A : Type} (f : Chunk -> A -> Chunk) (P : A -> Prop)
    `{!forall a, Decision (P a)} (key : Z * Z * Z) (w : MaterialDensityPair44)
    (l : list A) (c : Chunk) :
  (forall c a, a ∈ l -> f c a !! key = if decide (P a) then Some w else c !! key) ->
  foldl f c l !! key = if decide (Exists P l) then Some w else c !! key.
Proof.
  revert c. induction l as [|a l IH]; intros c Hf; cbn [foldl].
  - destruct (decide (Exists P [])) as [He|_]; [inversion He | reflexivity].
  - rewrite IH by (intros c' a' Ha'; apply Hf; set_solver).
    rewrite Hf by set_solver.
    destruct (decide (Exists P l)) as [Hl|Hl], (decide (P a)) as [Ha|Ha],
             (decide (Exists P (a :: l))) as [Hal|Hal]; try reflexivity.
    + exfalso. apply Hal. by apply Exists_cons_tl.
    + exfalso. apply Hal. by apply Exists_cons_tl.
    + exfalso. apply Hal. by apply Exists_cons_hd.
    + exfalso. inversion Hal; subst; contradiction.
Qed.

Lemma for_upto_lookup_fixed (lo hi : Z) (body : Z -> Chunk -> Chunk)
    (P : Z -> Prop) `{!forall a, Decision (P a)} (key : Z * Z * Z)
    (w : MaterialDensityPair44) (c : Chunk) :
  (forall c a, lo <= a <= hi ->
     body a c !! key = if decide (P a) then Some w else c !! key) ->
  for_upto lo hi body c !! key =
    if decide (Exists P (seqZ lo (hi - lo + 1))) then Some w else c !! key.
Proof.
  intros Hb. unfold for_upto.
  apply (foldl_lookup_fixed (fun s a => body a s) P).
  intros c' a Ha. apply Hb. apply elem_of_seqZ in Ha. lia.
Qed.

Lemma Exists_seqZ (P : Z -> Prop) (lo n : Z) :
  Exists P (seqZ lo n) <-> exists a, lo <= a < lo + n /\ P a.
Proof.
  rewrite Exists_exists. split; intros (a & Ha & HP); exists a; split; try done;
    by apply elem_of_seqZ.
Qed.

(** Reading the chunk after the three loops, at any local coordinate. *)
Lemma fillChunk_lookup (g : TerrainGraph) (region : Region) (c : Chunk) (i j k : Z) :
  fillChunk g region c !! (i, j, k) =
    if decide (visited region (getLowerX region + i) (getLowerY region + j)
                              (getLowerZ region + k))
    then Some (terrainVoxel g (getLowerX region + i) (getLowerY region + j)
                              (getLowerZ region + k))
    else c !! (i, j, k).
Proof.
  set (lx := getLowerX region). set (ly := getLowerY region).
  set (lz := getLowerZ region).
  set (w := terrainVoxel g (lx + i) (ly + j) (lz + k)).
  pose (Pz := fun x y z : Z => (x - lx, y - ly, z - lz) = (i, j, k)).
  pose (Py := fun x y : Z =>
    Exists (Pz x y) (seqZ lz (getUpperZ region - lz + 1))).
  pose (Px := fun x : Z =>
    Exists (Py x) (seqZ ly (getUpperY region ÷ 2 - ly + 1))).
  assert (Dz : forall x y z, Decision (Pz x y z)) by (intros; unfold Pz; apply _).
  assert (Dy : forall x y, Decision (Py x y)) by (intros; unfold Py; apply _).
  assert (Dx : forall x, Decision (Px x)) by (intros; unfold Px; apply _).
  unfold fillChunk. fold lx ly lz.
  rewrite (for_upto_lookup_fixed lx _ _ Px (i, j, k) w).
  - destruct (decide (Exists Px _)) as [Hx|Hx], (decide (visited _ _ _ _)) as [Hv|Hv];
      try reflexivity; exfalso.
    + apply Hv. apply Exists_seqZ in Hx as (x & Hxr & Hx).
      apply Exists_seqZ in Hx as (y & Hyr & Hy).
      apply Exists_seqZ in Hy as (z & Hzr & Hz).
      unfold Pz in Hz. injection Hz as <- <- <-. unfold visited. fold lx ly lz.
      replace (lx + (x - lx)) with x by lia.
      replace (ly + (y - ly)) with y by lia.
      replace (lz + (z - lz)) with z by lia. lia.
    + apply Hx. unfold visited in Hv. fold lx ly lz in Hv.
      apply Exists_seqZ. exists (lx + i). split; [lia|].
      apply Exists_seqZ. exists (ly + j). split; [lia|].
      apply Exists_seqZ. exists (lz + k). split; [lia|].
      unfold Pz. f_equal; [f_equal|]; lia.
  - intros c1 x _.
    rewrite (for_upto_lookup_fixed ly _ _ (Py x) (i, j, k) w).
    { destruct (decide (Exists _ _)), (decide (Px x)); done. }
    intros c2 y _.
    rewrite (for_upto_lookup_fixed lz _ _ (Pz x y) (i, j, k) w).
    { destruct (decide (Exists _ _)), (decide (Py x y)); done. }
    intros c3 z _. unfold setVoxel.
    destruct (decide (Pz x y z)) as [Hz|Hz].
    + unfold Pz in Hz. rewrite Hz, lookup_insert_eq. unfold w.
      injection Hz as <- <- <-. do 2 f_equal; lia.
    + by rewrite lookup_insert_ne.
Qed.

(** Local and global coordinates differ by the lower corner. *)
Ltac recentre region :=
  repeat match goal with
  | |- context [getLowerX region + (?x - getLowerX region)] =>
      replace (getLowerX region + (x - getLowerX region)) with x by lia
  | |- context [getLowerY region + (?y - getLowerY region)] =>
      replace (getLowerY region + (y - getLowerY region)) with y by lia
  | |- context [getLowerZ region + (?z - getLowerZ region)] =>
      replace (getLowerZ region + (z - getLowerZ region)) with z by lia
  end.

(** A visited coordinate holds the voxel computed for it. *)
Lemma fillChunk_visited (g : TerrainGraph) (region : Region) (c : Chunk) (x y z : Z) :
  visited region x y z ->
  getVoxel (x - getLowerX region) (y - getLowerY region) (z - getLowerZ region)
           (fillChunk g region c) = Some (terrainVoxel g x y z).
Proof.
  intros Hv. unfold getVoxel. rewrite fillChunk_lookup.
  recentre region.
  by rewrite decide_True.
Qed.

(** A coordinate the loops skip keeps whatever the chunk held. *)
Lemma fillChunk_skipped (g : TerrainGraph) (region : Region) (c : Chunk) (x y z : Z) :
  ~ visited region x y z ->
  getVoxel (x - getLowerX region) (y - getLowerY region) (z - getLowerZ region)
           (fillChunk g region c) =
  getVoxel (x - getLowerX region) (y - getLowerY region) (z - getLowerZ region) c.
Proof.
  intros Hv. unfold getVoxel. rewrite fillChunk_lookup.
  recentre region.
  by rewrite decide_False.
Qed.

(** The material decision, read on the three evaluated fields. *)
Lemma terrainVoxel_material (g : TerrainGraph) (x y z : Z) :
  let solidity := evaluateScalar x y z (PerturbGradient g) in
  let grassZ := FloorToInt (evaluateScalar x y z (GrassZ g)) in
  let ore := evaluateScalar x y z (OreFractal g) in
  getMaterial (terrainVoxel g x y z) =
    if (0.5 <? solidity)%float then
      if grassZ <=? z then Grass
      else if (z <=? grassZ - 1) && (grassZ - 1 - 3 <? z) then Dirt
      else if (1.95 <? ore)%float then Ore else Stone
    else Air.
Proof.
  cbv zeta. unfold terrainVoxel.
  destruct (0.5 <? evaluateScalar x y z (PerturbGradient g))%float; [|reflexivity].
  destruct (FloorToInt (evaluateScalar x y z (GrassZ g)) <=? z); [reflexivity|].
  destruct ((z <=? _) && (_ <? z)); [reflexivity|].
  destruct (1.95 <? evaluateScalar x y z (OreFractal g))%float; reflexivity.
Qed.

Lemma terrainVoxel_density (g : TerrainGraph) (x y z : Z) :
  getDensity (terrainVoxel g x y z) =
    if (0.5 <? evaluateScalar x y z (PerturbGradient g))%float then 255 else 0.
Proof.
  unfold terrainVoxel.
  destruct (0.5 <? evaluateScalar x y z (PerturbGradient g))%float; [|reflexivity].
  destruct (FloorToInt (evaluateScalar x y z (GrassZ g)) <=? z); [reflexivity|].
  destruct ((z <=? _) && (_ <? z)); [reflexivity|].
  destruct (1.95 <? evaluateScalar x y z (OreFractal g))%float; reflexivity.
Qed.

(** On binary64 values, [a <= b] excludes [b < a]. *)
Lemma SFleb_not_SFltb (a b : spec_float) : SFleb a b = true -> SFltb b a = false.
Proof.
  unfold SFleb, SFltb.
  destruct a as [[]|[]| |[] m1 e1], b as [[]|[]| |[] m2 e2]; cbn [SFcompare];
    try congruence.
  all: rewrite (Z.compare_antisym e1 e2);
    destruct (e1 ?= e2)%Z; cbn [CompOpp]; try congruence;
    pose proof (Pos.compare_cont_antisym m1 m2 Eq) as Hm;
    cbn [CompOpp] in Hm; rewrite <- Hm;
    destruct (Pos.compare_cont Eq m1 m2); cbn [CompOpp]; congruence.
Qed.

Lemma float_leb_not_ltb (a b : float) :
  (a <=? b)%float = true -> (b <? a)%float = false.
Proof. rewrite leb_spec, ltb_spec. apply SFleb_not_SFltb. Qed.

(** C2. Every coordinate the loops of [pageIn] write holds a voxel whose
    material follows the precedence of the source: when the perturbed field
    is above 0.5, Grass if z is at or above the floored grass line, else Dirt
    if z <= grassZ-1 and z > grassZ-1-3, else Ore if the ore field is above
    1.95, else Stone; when the field is 0.5 or less (more generally, not above
    0.5) the material is Air whatever the other fields are. *)
Theorem pageIn_material_precedence (this : VoxelTerrainPager) (region : Region)
    (chunk : Chunk) (x y z : Z) :
  visited region x y z ->
  let g := buildGraph this in
  let solidity := evaluateScalar x y z (PerturbGradient g) in
  let grassZ := FloorToInt (evaluateScalar x y z (GrassZ g)) in
  let ore := evaluateScalar x y z (OreFractal g) in
  exists v,
    getVoxel (x - getLowerX region) (y - getLowerY region) (z - getLowerZ region)
             (snd (pageIn region (this, chunk))) = Some v /\
    ((0.5 <? solidity)%float = true ->
       (z >= grassZ -> getMaterial v = Grass) /\
       (z < grassZ -> z <= grassZ - 1 /\ z > grassZ - 1 - 3 ->
          getMaterial v = Dirt) /\
       (z < grassZ -> ~ (z <= grassZ - 1 /\ z > grassZ - 1 - 3) ->
          (1.95 <? ore)%float = true -> getMaterial v = Ore) /\
       (z < grassZ -> ~ (z <= grassZ - 1 /\ z > grassZ - 1 - 3) ->
          (1.95 <? ore)%float = false -> getMaterial v = Stone)) /\
    ((solidity <=? 0.5)%float = true -> getMaterial v = Air) /\
    ((0.5 <? solidity)%float = false -> getMaterial v = Air).
Proof.
  intros Hv g solidity grassZ ore.
  exists (terrainVoxel g x y z). split.
  { cbn [pageIn snd]. by apply fillChunk_visited. }
  pose proof (terrainVoxel_material g x y z) as Hm. cbv zeta in Hm.
  fold solidity grassZ ore in Hm. rewrite Hm.
  split; [|split].
  - intros ->. repeat split.
    + intros Hz. destruct (Z.leb_spec grassZ z); [reflexivity | lia].
    + intros Hz Hband. destruct (Z.leb_spec grassZ z); [lia|].
      destruct (Z.leb_spec z (grassZ - 1)), (Z.ltb_spec (grassZ - 1 - 3) z);
        cbn [andb]; first [reflexivity | lia].
    + intros Hz Hband ->. destruct (Z.leb_spec grassZ z); [lia|].
      destruct (Z.leb_spec z (grassZ - 1)), (Z.ltb_spec (grassZ - 1 - 3) z);
        cbn [andb]; first [reflexivity | lia].
    + intros Hz Hband ->. destruct (Z.leb_spec grassZ z); [lia|].
      destruct (Z.leb_spec z (grassZ - 1)), (Z.ltb_spec (grassZ - 1 - 3) z);
        cbn [andb]; first [reflexivity | lia].
  - intros Hle. by rewrite (float_leb_not_ltb _ _ Hle).
  - by intros ->.
Qed.

(** C6. Every voxel written by [pageIn] has density 0 exactly when its
    material is Air: a solid voxel gets density 255 and a material other than
    Air, any other voxel density 0 and material Air; no other density occurs. *)
Theorem pageIn_density_iff_air (this : VoxelTerrainPager) (region : Region)
    (chunk : Chunk) (x y z : Z) :
  visited region x y z ->
  let solidity := evaluateScalar x y z (PerturbGradient (buildGraph this)) in
  exists v,
    getVoxel (x - getLowerX region) (y - getLowerY region) (z - getLowerZ region)
             (snd (pageIn region (this, chunk))) = Some v /\
    (getDensity v = 0 <-> getMaterial v = Air) /\
    ((0.5 <? solidity)%float = true -> getDensity v = 255 /\ getMaterial v <> Air) /\
    ((0.5 <? solidity)%float = false -> getDensity v = 0 /\ getMaterial v = Air) /\
    (getDensity v = 0 \/ getDensity v = 255).
Proof.
  intros Hv solidity. subst solidity. set (g := buildGraph this).
  exists (terrainVoxel g x y z). split.
  { cbn [pageIn snd]. by apply fillChunk_visited. }
  pose proof (terrainVoxel_material g x y z) as Hm. cbv zeta in Hm.
  rewrite Hm, terrainVoxel_density. clear Hm.
  destruct (0.5 <? evaluateScalar x y z (PerturbGradient g))%float.
  - assert (Hne : (if FloorToInt (evaluateScalar x y z (GrassZ g)) <=? z then Grass
              else if (z <=? FloorToInt (evaluateScalar x y z (GrassZ g)) - 1)
                      && (FloorToInt (evaluateScalar x y z (GrassZ g)) - 1 - 3 <? z)
                   then Dirt
                   else if (1.95 <? evaluateScalar x y z (OreFractal g))%float
                        then Ore else Stone) <> Air).
    { destruct (_ <=? z); [discriminate|].
      destruct (_ && _); [discriminate|].
      destruct (1.95 <? _)%float; discriminate. }
    split; [|split; [|split]].
    + split; [discriminate | intros Hair; by destruct Hne].
    + intros _. by split.
    + discriminate.
    + by right.
  - split; [|split; [|split]].
    + by split.
    + discriminate.
    + intros _. by split.
    + by left.
Qed.

(** C5. [pageIn] is a function of the pager's parameters, the region and the
    chunk it is given: it leaves the pager as it was, running it again on its
    own result changes nothing, and at every coordinate it writes the stored
    voxel does not depend on what the chunk held before. *)
Theorem pageIn_idempotent (this : VoxelTerrainPager) (region : Region) (chunk : Chunk) :
  pageIn region (pageIn region (this, chunk)) = pageIn region (this, chunk) /\
  fst (pageIn region (this, chunk)) = this /\
  forall (other : Chunk) (i j k : Z),
    is_Some (snd (pageIn region (this, ∅)) !! (i, j, k)) ->
    snd (pageIn region (this, other)) !! (i, j, k) =
    snd (pageIn region (this, chunk)) !! (i, j, k).
Proof.
  split; [|split].
  - cbn [pageIn]. f_equal. apply map_eq. intros [[i j] k].
    rewrite !fillChunk_lookup. by destruct (decide _).
  - reflexivity.
  - intros other i j k. cbn [pageIn snd]. rewrite !fillChunk_lookup.
    destruct (decide _); [reflexivity|].
    rewrite lookup_empty. intros [? ?]; discriminate.
Qed.

(** C9. [pageOut] does nothing: pager and chunk come back as they went in,
    and nothing of the evicted chunk reaches a later [pageIn]. *)
Theorem pageOut_no_action (region : Region) (this : VoxelTerrainPager) (chunk : Chunk) :
  pageOut region (this, chunk) = (this, chunk) /\
  forall (region' : Region) (evicted fresh : Chunk),
    pageIn region' (fst (pageOut region (this, evicted)), fresh) =
    pageIn region' (fst (pageOut region (this, chunk)), fresh).
Proof.
  split.
  - reflexivity.
  - intros region' evicted fresh. reflexivity.
Qed.

(** The rows above half of the upper y bound are never written. *)
Lemma pageIn_skips_upper_rows (this : VoxelTerrainPager) (region : Region)
    (chunk : Chunk) (x y z : Z) :
  getUpperY region ÷ 2 < y ->
  getVoxel (x - getLowerX region) (y - getLowerY region) (z - getLowerZ region)
           (snd (pageIn region (this, chunk))) =
  getVoxel (x - getLowerX region) (y - getLowerY region) (z - getLowerZ region) chunk.
Proof.
  intros Hy. cbn [pageIn snd]. apply fillChunk_skipped. unfold visited. lia.
Qed.

End PagingFacts.

(** C1. On the region (0,0,0)-(3,3,3) the coordinate (0,2,0) lies in the
    region, yet after [pageIn] on an empty chunk it holds no voxel: the y loop
    stops at [getUpperY() / 2] = 1. *)
Theorem pageIn_leaves_region_coordinate_unwritten :
  inRegion sampleRegion 0 2 0 /\
  getVoxel (0 - getLowerX sampleRegion) (2 - getLowerY sampleRegion)
           (0 - getLowerZ sampleRegion)
           (snd (pageIn (H := sampleExternals) sampleRegion (defaultPager, ∅))) = None.
Proof.
  split.
  - repeat split; by vm_compute.
  - rewrite (pageIn_skips_upper_rows (H := sampleExternals)).
    + reflexivity.
    + reflexivity.
Qed.

(** The column x = y = 1 of the sample terrain: two Dirt voxels below the
    grass line, Grass at z = 2, Air at z = 3. *)
Example pageIn_sample_column :
  (fun z => getMaterial <$>
     getVoxel 1 1 z (snd (pageIn (H := sampleExternals) sampleRegion (defaultPager, ∅))))
    <$> [0; 1; 2; 3]
  = [Some Dirt; Some Dirt; Some Grass; Some Air].
Proof. vm_compute. reflexivity. Qed.

(** With a negative upper y bound the division rounds toward zero and the
    loop runs past the region: for y in [-4, -1] it also visits y = 0, which
    is chunk-local row 4. *)
Example pageIn_negative_upper_y :
  ~ inRegion (mkRegion 0 (-4) 0 0 (-1) 0) 0 0 0 /\
  is_Some (getVoxel 0 4 0
    (snd (pageIn (H := sampleExternals) (mkRegion 0 (-4) 0 0 (-1) 0) (defaultPager, ∅)))).
Proof.
  split.
  - intros (_ & Hy & _). cbn in Hy. lia.
  - vm_compute. by eexists.
Qed.

Lemma pageIn_material_precedence_witness :
  visited sampleRegion 1 1 1 /\
  exists v,
    getVoxel 1 1 1 (snd (pageIn (H := sampleExternals) sampleRegion (defaultPager, ∅)))
      = Some v /\
    getMaterial v = Dirt.
Proof.
  assert (Hv : visited sampleRegion 1 1 1) by (repeat split; by vm_compute).
  split; [exact Hv|].
  destruct (pageIn_material_precedence (H := sampleExternals)
              defaultPager sampleRegion ∅ 1 1 1 Hv) as (v & Hget & Hsolid & _).
  exists v. split; [exact Hget|].
  apply Hsolid.
  - reflexivity.
  - vm_compute. reflexivity.
  - vm_compute. split; [discriminate | reflexivity].
Defined.

Lemma pageIn_density_iff_air_witness :
  visited sampleRegion 1 1 1 /\
  exists v,
    getVoxel 1 1 1 (snd (pageIn (H := sampleExternals) sampleRegion (defaultPager, ∅)))
      = Some v /\
    getDensity v = 255 /\ getMaterial v <> Air.
Proof.
  assert (Hv : visited sampleRegion 1 1 1) by (repeat split; by vm_compute).
  split; [exact Hv|].
  destruct (pageIn_density_iff_air (H := sampleExternals)
              defaultPager sampleRegion ∅ 1 1 1 Hv) as (v & Hget & _ & Hsolid & _).
  exists v. split; [exact Hget|].
  apply Hsolid. reflexivity.
Defined.

(* ===================================================================== *)
(** * Partition: what the loops of [BeginPlay] build *)

Section PartitionFacts.
Context `{Geometry}.

Lemma at_index_Done {A : Type} (l : list A) (i : nat) (a : A) :
  l !! i = Some a -> at_index l (Z.of_nat i) = Done a.
Proof.
  intros Hl. unfold at_index.
  destruct (Z.ltb_spec (Z.of_nat i) 0); [lia|]. by rewrite Nat2Z.id, Hl.
Qed.

Lemma vertexAt_Some (mesh : DecodedMesh) (pos : nat) (v : Vertex) :
  vertexAt mesh pos = Some v ->
  exists ix, getIndex mesh (Z.of_nat pos) = Done ix /\ getVertex mesh ix = Done v.
Proof.
  unfold vertexAt, getIndex, getVertex. intros Hv.
  destruct (m_vecIndices mesh !! pos) as [ix|] eqn:Hix; [|discriminate].
  cbn in Hv. exists ix. split; [by apply at_index_Done|].
  unfold at_index. destruct (ix <? 0); [discriminate|]. by rewrite Hv.
Qed.

Lemma triangleAt_Some (mesh : DecodedMesh) (k : nat) (v0 v1 v2 : Vertex) :
  triangleAt mesh k = Some (v0, v1, v2) ->
  vertexAt mesh (3 * k) = Some v0 /\
  vertexAt mesh (3 * k + 1) = Some v1 /\
  vertexAt mesh (3 * k + 2) = Some v2.
Proof.
  unfold triangleAt. intros Ht.
  destruct (vertexAt mesh (3 * k)) as [a|]; [|discriminate].
  destruct (vertexAt mesh (3 * k + 1)) as [b|]; [|discriminate].
  destruct (vertexAt mesh (3 * k + 2)) as [c|]; [|discriminate].
  cbn in Ht. by injection Ht as -> -> ->.
Qed.

(** In a well-formed mesh every index triple resolves to three vertices. *)
Lemma well_formed_triangleAt (mesh : DecodedMesh) (k : nat) :
  well_formed mesh -> (k < noOfTriangles mesh)%nat ->
  is_Some (triangleAt mesh k).
Proof.
  intros (Hmod & Hrange & _) Hk. unfold noOfTriangles in Hk.
  assert (Hlen : (3 * k + 2 < length (m_vecIndices mesh))%nat).
  { pose proof (Nat.div_mod_eq (length (m_vecIndices mesh)) 3). lia. }
  assert (Hv : forall pos, (pos < length (m_vecIndices mesh))%nat ->
                 is_Some (vertexAt mesh pos)).
  { intros pos Hpos. unfold vertexAt.
    destruct (lookup_lt_is_Some_2 _ _ Hpos) as [ix Hix]. rewrite Hix. cbn.
    rewrite Forall_lookup in Hrange. specialize (Hrange _ _ Hix).
    destruct (Z.ltb_spec ix 0); [lia|].
    apply lookup_lt_is_Some_2. lia. }
  unfold triangleAt.
  destruct (Hv (3 * k)%nat) as [v0 ->]; [lia|].
  destruct (Hv (3 * k + 1)%nat) as [v1 ->]; [lia|].
  destruct (Hv (3 * k + 2)%nat) as [v2 ->]; [lia|].
  by eexists.
Qed.

Lemma trianglesFrom_cons (mesh : DecodedMesh) (k n : nat) (t : Triangle) :
  triangleAt mesh k = Some t ->
  trianglesFrom mesh k (S n) = t :: trianglesFrom mesh (S k) n.
Proof. intros Ht. unfold trianglesFrom. cbn -[triangleAt]. by rewrite Ht. Qed.

Lemma trianglesFrom_length (mesh : DecodedMesh) (k n : nat) :
  well_formed mesh -> (k + n <= noOfTriangles mesh)%nat ->
  length (trianglesFrom mesh k n) = n.
Proof.
  intros Hwf. revert k. induction n as [|n IH]; intros k Hk; [reflexivity|].
  destruct (well_formed_triangleAt mesh k Hwf) as [t Ht]; [lia|].
  rewrite (trianglesFrom_cons _ _ _ _ Ht). cbn. rewrite IH; [done | lia].
Qed.

Lemma rawTriangles_length (mesh : DecodedMesh) :
  well_formed mesh -> length (rawTriangles mesh) = noOfTriangles mesh.
Proof. intros Hwf. by apply trianglesFrom_length. Qed.

(** On a resolved triple the loop body is [emitTriangle]. *)
Lemma triangleBody_emit (mesh : DecodedMesh) (Material : Z) (k : nat)
    (s : MeshSection) (t : Triangle) :
  triangleAt mesh k = Some t ->
  Z.of_nat (3 * k + 2) < 2 ^ 32 ->
  triangleBody mesh Material (Z.of_nat (3 * k)) s = Done (emitTriangle Material s t).
Proof.
  destruct t as [[v0 v1] v2]. intros Ht Hsmall.
  apply triangleAt_Some in Ht as (H0 & H1 & H2).
  apply vertexAt_Some in H0 as (i0 & Hi0 & Hv0).
  apply vertexAt_Some in H1 as (i1 & Hi1 & Hv1).
  apply vertexAt_Some in H2 as (i2 & Hi2 & Hv2).
  unfold triangleBody, emitTriangle, triangleTag. cbn [snd].
  replace (u32 (Z.of_nat (3 * k) + 2)) with (Z.of_nat (3 * k + 2))
    by (unfold u32; rewrite Z.mod_small; lia).
  replace (u32 (Z.of_nat (3 * k) + 1)) with (Z.of_nat (3 * k + 1))
    by (unfold u32; rewrite Z.mod_small; lia).
  rewrite Hi2. cbn [mbind Exec_bind]. rewrite Hv2. cbn [mbind Exec_bind].
  destruct (getMaterial (data v2) =? Material + 1); [|reflexivity].
  rewrite Hi1. cbn [mbind Exec_bind]. rewrite Hv1. cbn [mbind Exec_bind].
  rewrite Hi0. cbn [mbind Exec_bind]. rewrite Hv0. cbn [mbind Exec_bind].
  reflexivity.
Qed.

Lemma well_formed_length (mesh : DecodedMesh) :
  well_formed mesh ->
  length (m_vecIndices mesh) = (3 * noOfTriangles mesh)%nat.
Proof.
  intros (Hmod & _). unfold noOfTriangles.
  pose proof (Nat.div_mod_eq (length (m_vecIndices mesh)) 3). lia.
Qed.

(** The loop over index triples on a well-formed mesh with at least one
    triangle: from the [k]-th triple on it folds [emitTriangle] over the
    remaining triples, and it needs one test of its condition per remaining
    triple plus the final one. *)
Lemma indexLoop_run (mesh : DecodedMesh) (Material : Z) (fuel : nat) :
  well_formed mesh -> (1 <= noOfTriangles mesh)%nat ->
  forall (k : nat) (s : MeshSection), (k <= noOfTriangles mesh)%nat ->
  indexLoop fuel mesh Material (Z.of_nat (3 * k)) s =
    if decide (noOfTriangles mesh - k < fuel)%nat
    then Done (foldl (emitTriangle Material) s
                 (trianglesFrom mesh k (noOfTriangles mesh - k)))
    else OutOfFuel.
Proof.
  intros Hwf HT. pose proof (well_formed_length mesh Hwf) as Hlen.
  destruct Hwf as (Hmod & Hrange & Hsmall).
  assert (Hwf : well_formed mesh) by done.
  set (T := noOfTriangles mesh) in *.
  assert (Hbound : size_t (getNoOfIndices mesh - 2) = Z.of_nat (3 * T) - 2).
  { unfold size_t, getNoOfIndices. rewrite Hlen. apply Z.mod_small. lia. }
  induction fuel as [|fuel IH]; intros k s Hk.
  { rewrite decide_False by lia. reflexivity. }
  cbn [indexLoop]. rewrite Hbound.
  destruct (Z.ltb_spec (Z.of_nat (3 * k)) (Z.of_nat (3 * T) - 2)) as [Hlt|Hge].
  - assert (Hk' : (k < T)%nat) by lia.
    destruct (well_formed_triangleAt mesh k Hwf Hk') as [t Ht].
    rewrite (triangleBody_emit mesh Material k s t Ht) by lia.
    cbn [mbind Exec_bind].
    replace (u32 (Z.of_nat (3 * k) + 3)) with (Z.of_nat (3 * S k))
      by (unfold u32; rewrite Z.mod_small; lia).
    rewrite IH by lia.
    replace (T - k)%nat with (S (T - S k)) by lia.
    rewrite (trianglesFrom_cons _ _ _ _ Ht). cbn [foldl].
    destruct (decide (T - S k < fuel)%nat), (decide (S (T - S k) < S fuel)%nat);
      first [reflexivity | lia].
  - assert (k = T) as -> by lia.
    rewrite decide_True by lia. by rewrite Nat.sub_diag.
Qed.

Lemma indexLoop_section (mesh : DecodedMesh) (Material : Z) (fuel : nat) :
  well_formed mesh -> (1 <= noOfTriangles mesh)%nat ->
  indexLoop fuel mesh Material 0 emptySection =
    if decide (noOfTriangles mesh < fuel)%nat
    then Done (sectionOf mesh Material) else OutOfFuel.
Proof.
  intros Hwf HT.
  pose proof (indexLoop_run mesh Material fuel Hwf HT 0 emptySection) as Hrun.
  rewrite Nat.sub_0_r in Hrun. apply Hrun. lia.
Qed.

(** With fewer than two indices the bound [getNoOfIndices() - 2] wraps
    around and the first round reads index position 2. *)
Lemma indexLoop_short_mesh (mesh : DecodedMesh) (Material : Z) (fuel : nat)
    (s : MeshSection) :
  (length (m_vecIndices mesh) < 2)%nat ->
  indexLoop (S fuel) mesh Material 0 s = Fault.
Proof.
  intros Hlen. cbn [indexLoop].
  assert (Hbound : 0 < size_t (getNoOfIndices mesh - 2)).
  { unfold size_t, getNoOfIndices.
    replace (Z.of_nat (length (m_vecIndices mesh)) - 2)
      with ((Z.of_nat (length (m_vecIndices mesh)) + 2 ^ 64 - 2) + (-1) * 2 ^ 64)
      by lia.
    rewrite Z.mod_add by lia. rewrite Z.mod_small; lia. }
  destruct (Z.ltb_spec 0 (size_t (getNoOfIndices mesh - 2))); [|lia].
  assert (Hread : getIndex mesh (u32 (0 + 2)) = Fault).
  { unfold getIndex, at_index. change (u32 (0 + 2)) with 2.
    cbn [Z.ltb Z.compare].
    rewrite (lookup_ge_None_2 (m_vecIndices mesh) (Z.to_nat 2)); [reflexivity|].
    change (Z.to_nat 2) with 2%nat. lia. }
  unfold triangleBody. rewrite Hread. reflexivity.
Qed.

Lemma CreateMeshSection_append (sec : MeshSection) (secs : list MeshSection) :
  CreateMeshSection (Z.of_nat (length secs)) sec secs = secs ++ [sec].
Proof.
  unfold CreateMeshSection. rewrite Nat2Z.id.
  replace (S (length secs) - length secs)%nat with 1%nat by lia.
  cbn [replicate]. rewrite insert_app_r_alt by lia.
  by rewrite Nat.sub_diag.
Qed.

Lemma materialLoop_run (mesh : DecodedMesh) (fuel : nat) :
  well_formed mesh -> (1 <= noOfTriangles mesh < fuel)%nat ->
  forall (count : nat) (secs : list MeshSection),
  materialLoop fuel mesh (seqZ (Z.of_nat (length secs)) (Z.of_nat count)) secs =
    Done (secs ++ (sectionOf mesh <$> seqZ (Z.of_nat (length secs)) (Z.of_nat count))).
Proof.
  intros Hwf HT. induction count as [|count IH]; intros secs.
  { cbn. by rewrite app_nil_r. }
  rewrite seqZ_cons by lia. cbn [materialLoop fmap list_fmap].
  rewrite indexLoop_section by (done || lia).
  rewrite decide_True by lia. cbn [mbind Exec_bind].
  rewrite CreateMeshSection_append.
  replace (Z.succ (Z.of_nat (length secs)))
    with (Z.of_nat (length (secs ++ [sectionOf mesh (Z.of_nat (length secs))])))
    by (rewrite length_app; cbn; lia).
  replace (Z.pred (Z.of_nat (S count))) with (Z.of_nat count) by lia.
  rewrite IH. by rewrite <- app_assoc.
Qed.

(** Enough fuel: [BeginPlay] yields one section per material, in order. *)
Lemma BeginPlay_enough_fuel (mesh : DecodedMesh) (Num : Z) (fuel : nat) :
  well_formed mesh -> (1 <= noOfTriangles mesh < fuel)%nat ->
  BeginPlay fuel mesh Num = Done (sectionOf mesh <$> seqZ 0 Num).
Proof.
  intros Hwf HT. unfold BeginPlay.
  destruct (Z.le_gt_cases Num 0) as [Hle|Hgt].
  { by rewrite seqZ_nil. }
  replace Num with (Z.of_nat (Z.to_nat Num)) by lia.
  apply (materialLoop_run mesh fuel Hwf HT (Z.to_nat Num) []).
Qed.

(** Whatever the fuel, a finished run has produced exactly these sections. *)
Lemma BeginPlay_Done (mesh : DecodedMesh) (Num : Z) (fuel : nat)
    (secs : list MeshSection) :
  well_formed mesh ->
  BeginPlay fuel mesh Num = Done secs ->
  secs = (sectionOf mesh <$> seqZ 0 Num).
Proof.
  intros Hwf Hrun.
  destruct (Z.le_gt_cases Num 0) as [Hle|Hgt].
  { unfold BeginPlay in Hrun. rewrite seqZ_nil in * by done.
    cbn in Hrun. by injection Hrun as <-. }
  destruct (decide (1 <= noOfTriangles mesh < fuel)%nat) as [HT|HT].
  { rewrite BeginPlay_enough_fuel in Hrun by done. by injection Hrun as <-. }
  exfalso. unfold BeginPlay in Hrun. rewrite seqZ_cons in Hrun by lia.
  cbn [materialLoop] in Hrun.
  destruct (decide (1 <= noOfTriangles mesh)%nat) as [H1|H0].
  - rewrite indexLoop_section in Hrun by done.
    rewrite decide_False in Hrun by lia. discriminate.
  - destruct fuel as [|fuel]; [discriminate|].
    rewrite indexLoop_short_mesh in Hrun; [discriminate|].
    rewrite (well_formed_length mesh Hwf). lia.
Qed.

(** ** The buffers of a section *)

Lemma emitTriangle_buffers (Material : Z) (s : MeshSection) (t : Triangle) :
  emitTriangle Material s t =
    if decide (triangleTag t = Material + 1) then
      mkSection
        (Vertices s ++ emittedPositions t)
        (Indices s ++ seqZ (Z.of_nat (length (Vertices s))) 3)
        (Normals s ++ replicate 3 (flatNormal t))
        (Tangents s ++ replicate 3 (mkTangent (flatTangent t) false))
    else s.
Proof.
  destruct t as [[v0 v1] v2]. unfold emitTriangle.
  destruct (Z.eqb_spec (triangleTag (v0, v1, v2)) (Material + 1)) as [Heq|Hne].
  - rewrite decide_True by done.
    cbn [Nat.iter nat_rect emittedPositions replicate].
    unfold addTangentNormal, addVertex.
    cbn [Vertices Indices Normals Tangents].
    rewrite !length_app. cbn [length].
    rewrite <- !app_assoc. cbn [app].
    do 3 (rewrite (seqZ_cons _ _) by lia). rewrite seqZ_nil by lia.
    do 4 f_equal; repeat f_equal; lia.
  - by rewrite decide_False.
Qed.

Lemma foldl_emitTriangle (Material : Z) (ts : list Triangle) (s : MeshSection) :
  foldl (emitTriangle Material) s ts =
    mkSection
      (Vertices s ++ flat_map emittedPositions (taggedWith (Material + 1) ts))
      (Indices s ++ seqZ (Z.of_nat (length (Vertices s)))
                         (3 * Z.of_nat (length (taggedWith (Material + 1) ts))))
      (Normals s ++ flat_map (fun t => replicate 3 (flatNormal t))
                             (taggedWith (Material + 1) ts))
      (Tangents s ++ flat_map (fun t => replicate 3 (mkTangent (flatTangent t) false))
                              (taggedWith (Material + 1) ts)).
Proof.
  revert s. induction ts as [|t ts IH]; intros s.
  { cbn. rewrite !app_nil_r. by destruct s. }
  cbn [foldl]. rewrite IH, emitTriangle_buffers. unfold taggedWith.
  rewrite filter_cons.
  destruct (decide (triangleTag t = Material + 1)) as [Heq|Hne]; [|reflexivity].
  cbn [Vertices Indices Normals Tangents flat_map length].
  rewrite <- !app_assoc.
  assert (Hlen : length (emittedPositions t) = 3%nat) by (by destruct t as [[? ?] ?]).
  rewrite length_app, Hlen.
  replace (3 * Z.of_nat (S (length (filter (fun t0 => triangleTag t0 = Material + 1) ts))))
    with (3 + 3 * Z.of_nat (length (filter (fun t0 => triangleTag t0 = Material + 1) ts)))
    by lia.
  rewrite (seqZ_app _ 3) by lia.
  by rewrite Nat2Z.inj_add.
Qed.

Lemma sectionOf_buffers (mesh : DecodedMesh) (Material : Z) :
  sectionOf mesh Material =
    mkSection
      (flat_map emittedPositions (taggedWith (Material + 1) (rawTriangles mesh)))
      (seqZ 0 (3 * Z.of_nat (length (taggedWith (Material + 1) (rawTriangles mesh)))))
      (flat_map (fun t => replicate 3 (flatNormal t))
                (taggedWith (Material + 1) (rawTriangles mesh)))
      (flat_map (fun t => replicate 3 (mkTangent (flatTangent t) false))
                (taggedWith (Material + 1) (rawTriangles mesh))).
Proof. unfold sectionOf. by rewrite foldl_emitTriangle. Qed.

Lemma length_flat_map3 {A B : Type} (f : A -> list B) (l : list A) :
  (forall a, length (f a) = 3%nat) ->
  length (flat_map f l) = (3 * length l)%nat.
Proof.
  intros Hf. induction l as [|a l IH]; [reflexivity|].
  cbn [flat_map]. rewrite length_app, Hf, IH. cbn [length]. lia.
Qed.

Lemma lookup_flat_map3 {A B : Type} (f : A -> list B) (l : list A)
    (j r : nat) (a : A) :
  (forall a, length (f a) = 3%nat) ->
  l !! j = Some a -> (r < 3)%nat ->
  flat_map f l !! (3 * j + r)%nat = f a !! r.
Proof.
  intros Hf. revert j. induction l as [|b l IH]; intros j Hj Hr; [done|].
  cbn [flat_map]. destruct j as [|j].
  - cbn in Hj. injection Hj as ->. rewrite lookup_app_l by (rewrite Hf; lia).
    f_equal.
  - cbn in Hj. rewrite lookup_app_r by (rewrite Hf; lia). rewrite Hf.
    replace (3 * S j + r - 3)%nat with (3 * j + r)%nat by lia. by apply IH.
Qed.

Lemma length_emittedPositions (t : Triangle) : length (emittedPositions t) = 3%nat.
Proof. by destruct t as [[? ?] ?]. Qed.

Lemma sectionOf_triangleCount (mesh : DecodedMesh) (Material : Z) :
  triangleCount (sectionOf mesh Material) =
    length (taggedWith (Material + 1) (rawTriangles mesh)).
Proof.
  unfold triangleCount. rewrite sectionOf_buffers. cbn [Indices].
  rewrite length_seqZ.
  replace (Z.to_nat (3 * Z.of_nat (length (taggedWith (Material + 1) (rawTriangles mesh)))))
    with (length (taggedWith (Material + 1) (rawTriangles mesh)) * 3)%nat by lia.
  apply Nat.div_mul. lia.
Qed.

Lemma sectionOf_vertex_count (mesh : DecodedMesh) (Material : Z) :
  length (Vertices (sectionOf mesh Material)) =
    (3 * triangleCount (sectionOf mesh Material))%nat.
Proof.
  rewrite sectionOf_triangleCount, sectionOf_buffers. cbn [Vertices].
  apply length_flat_map3, length_emittedPositions.
Qed.

Lemma sectionOf_indices (mesh : DecodedMesh) (Material : Z) :
  Indices (sectionOf mesh Material) =
    seqZ 0 (Z.of_nat (length (Vertices (sectionOf mesh Material)))).
Proof.
  rewrite sectionOf_vertex_count, sectionOf_triangleCount, sectionOf_buffers.
  cbn [Indices]. f_equal. lia.
Qed.

Lemma sectionOf_indicesValid (mesh : DecodedMesh) (Material : Z) :
  indicesValid (sectionOf mesh Material).
Proof.
  unfold indicesValid. rewrite sectionOf_indices. apply Forall_seqZ. lia.
Qed.

(** ** Counting triangles over all sections *)

Lemma sum_list_with_add {A : Type} (f g : A -> nat) (l : list A) :
  sum_list_with (fun a => f a + g a)%nat l =
    (sum_list_with f l + sum_list_with g l)%nat.
Proof. induction l as [|a l IH]; cbn; [reflexivity | rewrite IH; lia]. Qed.

Lemma sum_list_with_zero {A : Type} (l : list A) :
  sum_list_with (fun _ => 0%nat) l = 0%nat.
Proof. induction l as [|a l IH]; cbn; [reflexivity | by rewrite IH]. Qed.

(** A tag selects exactly one of the sections 0 .. Num-1 when it lies in
    [1, Num], and none otherwise. *)
Lemma tag_selects_one_section (tag Num : Z) :
  sum_list_with (fun Material => if decide (tag = Material + 1) then 1%nat else 0%nat)
                (seqZ 0 Num) =
    if decide (1 <= tag <= Num) then 1%nat else 0%nat.
Proof.
  destruct (Z.le_gt_cases Num 0) as [Hle|Hgt].
  { rewrite seqZ_nil by done. rewrite decide_False by lia. reflexivity. }
  replace Num with (Z.of_nat (Z.to_nat Num)) by lia. clear Hgt.
  induction (Z.to_nat Num) as [|n IH].
  { cbn. rewrite decide_False by lia. reflexivity. }
  rewrite seqZ_S, sum_list_with_app, IH. cbn [sum_list_with].
  destruct (decide (1 <= tag <= Z.of_nat n)),
           (decide (tag = 0 + Z.of_nat n + 1)),
           (decide (1 <= tag <= Z.of_nat (S n))); lia.
Qed.

Lemma tagged_counts_sum (ts : list Triangle) (Num : Z) :
  sum_list_with (fun Material => length (taggedWith (Material + 1) ts)) (seqZ 0 Num) =
    length (filter (fun t => 1 <= triangleTag t <= Num) ts).
Proof.
  induction ts as [|t ts IH].
  { cbn. apply sum_list_with_zero. }
  rewrite filter_cons.
  assert (Hstep : forall l : list Z,
    sum_list_with (fun Material => length (taggedWith (Material + 1) (t :: ts))) l =
    sum_list_with
      (fun Material =>
         Nat.add (if decide (triangleTag t = Material + 1) then 1%nat else 0%nat)
                 (length (taggedWith (Material + 1) ts))) l).
  { intros l. induction l as [|m l IHl]; [reflexivity|].
    cbn [sum_list_with]. rewrite IHl. f_equal.
    unfold taggedWith. rewrite filter_cons.
    by destruct (decide (triangleTag t = m + 1)). }
  rewrite Hstep.
  rewrite (sum_list_with_add
             (fun Material => if decide (triangleTag t = Material + 1)
                              then 1%nat else 0%nat)
             (fun Material => length (taggedWith (Material + 1) ts))).
  rewrite IH, tag_selects_one_section.
  by destruct (decide (1 <= triangleTag t <= Num)).
Qed.

Lemma sum_list_with_fmap {A B : Type} (f : B -> nat) (g : A -> B) (l : list A) :
  sum_list_with f (g <$> l) = sum_list_with (fun a => f (g a)) l.
Proof. induction l as [|a l IH]; cbn; [reflexivity | by rewrite IH]. Qed.

Lemma sections_triangle_total (mesh : DecodedMesh) (Num : Z) :
  sum_list_with triangleCount (sectionOf mesh <$> seqZ 0 Num) =
    length (filter (fun t => 1 <= triangleTag t <= Num) (rawTriangles mesh)).
Proof.
  rewrite sum_list_with_fmap, <- tagged_counts_sum.
  induction (seqZ 0 Num) as [|m l IH]; [reflexivity|].
  cbn [sum_list_with]. by rewrite IH, sectionOf_triangleCount.
Qed.

Lemma sections_lookup (mesh : DecodedMesh) (Num Material : Z) :
  0 <= Material < Num ->
  (sectionOf mesh <$> seqZ 0 Num) !! Z.to_nat Material = Some (sectionOf mesh Material).
Proof.
  intros HM. rewrite list_lookup_fmap, lookup_seqZ_lt by lia.
  cbn. rewrite Z2Nat.id by lia. reflexivity.
Qed.

Lemma sections_lookup_inv (mesh : DecodedMesh) (Num : Z) (Material : nat)
    (sec : MeshSection) :
  (sectionOf mesh <$> seqZ 0 Num) !! Material = Some sec ->
  sec = sectionOf mesh (Z.of_nat Material) /\ Z.of_nat Material < Num.
Proof.
  rewrite list_lookup_fmap. intros Hl.
  destruct (seqZ 0 Num !! Material) as [m|] eqn:Hm; [|discriminate].
  apply lookup_seqZ in Hm as [-> Hlt]. cbn in Hl. injection Hl as <-.
  split; [f_equal; lia | lia].
Qed.

Lemma rawTriangles_third_vertex (mesh : DecodedMesh) (t : Triangle) :
  t ∈ rawTriangles mesh -> snd t ∈ m_vecVertices mesh.
Proof.
  unfold rawTriangles, trianglesFrom. intros Ht.
  apply list_elem_of_omap in Ht as (k & _ & Hk).
  destruct t as [[v0 v1] v2]. apply triangleAt_Some in Hk as (_ & _ & H2).
  unfold vertexAt in H2.
  destruct (m_vecIndices mesh !! (3 * k + 2)%nat) as [ix|]; [|discriminate].
  cbn in H2. destruct (ix <? 0); [discriminate|].
  cbn [snd]. apply list_elem_of_lookup. by eexists.
Qed.

Lemma length_filter_Forall {A : Type} (P : A -> Prop) `{!forall a, Decision (P a)}
    (l : list A) :
  Forall P l -> length (filter P l) = length l.
Proof.
  induction 1 as [|a l Ha _ IH]; [reflexivity|].
  rewrite filter_cons_True by done. cbn. by rewrite IH.
Qed.

(** One more test of the loop condition than there are triangles is enough
    for every section. *)
Ltac run_with_enough_fuel mesh Num :=
  exists (S (noOfTriangles mesh)), (sectionOf mesh <$> seqZ 0 Num);
  apply BeginPlay_enough_fuel; [done | lia].

(** X15. On a well-formed mesh whose vertex tags all lie in [1, Num], a
    finished run of the partition has produced [Num] sections whose triangle
    counts add up to the number of triangles of the mesh; every section has
    three vertices per triangle and only indices that are positions of its
    own vertex array.  With at least one triangle the run does finish. *)
Theorem partition_counts_and_indices (mesh : DecodedMesh) (Num : Z) :
  well_formed mesh ->
  Forall (fun v => 1 <= getMaterial (data v) <= Num) (m_vecVertices mesh) ->
  (forall fuel secs, BeginPlay fuel mesh Num = Done secs ->
     length secs = Z.to_nat Num /\
     sum_list_with triangleCount secs = noOfTriangles mesh /\
     Forall (fun s => length (Vertices s) = (3 * triangleCount s)%nat /\
                      indicesValid s) secs) /\
  ((1 <= noOfTriangles mesh)%nat ->
     exists fuel secs, BeginPlay fuel mesh Num = Done secs).
Proof.
  intros Hwf Htags. split.
  - intros fuel secs Hrun. apply BeginPlay_Done in Hrun as ->; [|done].
    split; [|split].
    + by rewrite length_fmap, length_seqZ.
    + rewrite sections_triangle_total, length_filter_Forall.
      * by apply rawTriangles_length.
      * apply Forall_forall. intros t Ht.
        apply rawTriangles_third_vertex in Ht.
        rewrite Forall_forall in Htags. apply (Htags _ Ht).
    + apply Forall_fmap, Forall_forall. intros Material _. cbn. split.
      * apply sectionOf_vertex_count.
      * apply sectionOf_indicesValid.
  - intros HT. run_with_enough_fuel mesh Num.
Qed.

(** C7. On a well-formed mesh, a finished run has put into the section of
    material id [m] (1 <= m <= Num) exactly the raw triangles whose third
    vertex carries the tag [m], so a triangle is in section [m] if and only
    if that tag equals [m]; over all sections this accounts for the triangles
    tagged within [1, Num] and no other, hence none tagged Air.  With at
    least one triangle the run does finish. *)
Theorem section_membership_by_third_vertex (mesh : DecodedMesh) (Num : Z) :
  well_formed mesh ->
  (forall fuel secs, BeginPlay fuel mesh Num = Done secs ->
     (forall m, 1 <= m <= Num ->
        exists sec, secs !! Z.to_nat (m - 1) = Some sec /\
          Vertices sec = flat_map emittedPositions (taggedWith m (rawTriangles mesh)) /\
          triangleCount sec = length (taggedWith m (rawTriangles mesh)) /\
          (forall t, t ∈ taggedWith m (rawTriangles mesh) <->
                     t ∈ rawTriangles mesh /\ triangleTag t = m)) /\
     length secs = Z.to_nat Num /\
     sum_list_with triangleCount secs =
       length (filter (fun t => 1 <= triangleTag t <= Num) (rawTriangles mesh)) /\
     (forall t m, triangleTag t = Air -> 1 <= m <= Num ->
                  t ∉ taggedWith m (rawTriangles mesh))) /\
  ((1 <= noOfTriangles mesh)%nat ->
     exists fuel secs, BeginPlay fuel mesh Num = Done secs).
Proof.
  intros Hwf. split.
  - intros fuel secs Hrun. apply BeginPlay_Done in Hrun as ->; [|done].
    split; [|split; [|split]].
    + intros m Hm. exists (sectionOf mesh (m - 1)). split; [|split; [|split]].
      * apply sections_lookup. lia.
      * rewrite sectionOf_buffers. cbn [Vertices].
        by replace (m - 1 + 1) with m by lia.
      * rewrite sectionOf_triangleCount. by replace (m - 1 + 1) with m by lia.
      * intros t. unfold taggedWith. by rewrite list_elem_of_filter, (comm and).
    + by rewrite length_fmap, length_seqZ.
    + apply sections_triangle_total.
    + intros t m Hair Hm Hin. unfold taggedWith in Hin.
      apply list_elem_of_filter in Hin as [Htag _]. unfold Air in Hair. lia.
  - intros HT. run_with_enough_fuel mesh Num.
Qed.

(** C10. On a well-formed mesh, every section of a finished run has the
    index buffer 0, 1, ..., 3T-1 for its triangle count T, the k-th index
    being k and referring to the k-th vertex added, and its vertices are those
    of the included triangles in the order of the raw index sequence.  With
    at least one triangle the run does finish. *)
Theorem section_indices_consecutive (mesh : DecodedMesh) (Num : Z) :
  well_formed mesh ->
  (forall fuel secs, BeginPlay fuel mesh Num = Done secs ->
     forall (Material : nat) (sec : MeshSection), secs !! Material = Some sec ->
       Indices sec = seqZ 0 (3 * Z.of_nat (triangleCount sec)) /\
       length (Vertices sec) = (3 * triangleCount sec)%nat /\
       (forall k : nat, (k < 3 * triangleCount sec)%nat ->
          Indices sec !! k = Some (Z.of_nat k) /\ is_Some (Vertices sec !! k)) /\
       Vertices sec =
         flat_map emittedPositions
           (taggedWith (Z.of_nat Material + 1) (rawTriangles mesh)) /\
       taggedWith (Z.of_nat Material + 1) (rawTriangles mesh)
         `sublist_of` rawTriangles mesh) /\
  ((1 <= noOfTriangles mesh)%nat ->
     exists fuel secs, BeginPlay fuel mesh Num = Done secs).
Proof.
  intros Hwf. split.
  - intros fuel secs Hrun Material sec Hsec.
    apply BeginPlay_Done in Hrun as ->; [|done].
    apply sections_lookup_inv in Hsec as [-> _].
    pose proof (sectionOf_vertex_count mesh (Z.of_nat Material)) as Hcount.
    pose proof (sectionOf_indices mesh (Z.of_nat Material)) as Hidx.
    rewrite Hcount in Hidx.
    split; [|split; [|split; [|split]]].
    + rewrite Hidx. f_equal. lia.
    + exact Hcount.
    + intros k Hk. split.
      * rewrite Hidx. rewrite lookup_seqZ_lt by lia. f_equal.
      * apply lookup_lt_is_Some_2. lia.
    + rewrite sectionOf_buffers. reflexivity.
    + apply sublist_filter.
  - intros HT. run_with_enough_fuel mesh Num.
Qed.

(** C4. On a well-formed mesh, the [j]-th triangle (v0, v1, v2) included in
    the section of material id [m] occupies the positions 3j, 3j+1, 3j+2 of
    the section's buffers: its vertices appear in the order third, second,
    first, and all three positions carry the same tangent, the normalized
    edge v1 - v0, and the same normal, the normalized cross product of the
    edges v1 - v0 and v2 - v0.  The run that builds the section finishes and
    no run ends otherwise. *)
Theorem included_triangle_reversed_flat (mesh : DecodedMesh) (Num m : Z)
    (j : nat) (v0 v1 v2 : Vertex) :
  well_formed mesh -> 1 <= m <= Num ->
  taggedWith m (rawTriangles mesh) !! j = Some (v0, v1, v2) ->
  let Edge01 := FPolyVoxVector (vsub (position v1) (position v0)) in
  let Edge02 := FPolyVoxVector (vsub (position v2) (position v0)) in
  exists fuel secs sec,
    BeginPlay fuel mesh Num = Done secs /\
    (forall fuel' secs', BeginPlay fuel' mesh Num = Done secs' -> secs' = secs) /\
    secs !! Z.to_nat (m - 1) = Some sec /\
    Vertices sec !! (3 * j)%nat = Some (vscale (FPolyVoxVector (position v2)) 100) /\
    Vertices sec !! (3 * j + 1)%nat = Some (vscale (FPolyVoxVector (position v1)) 100) /\
    Vertices sec !! (3 * j + 2)%nat = Some (vscale (FPolyVoxVector (position v0)) 100) /\
    forall r : nat, (r < 3)%nat ->
      Tangents sec !! (3 * j + r)%nat = Some (mkTangent (GetSafeNormal Edge01) false) /\
      Normals sec !! (3 * j + r)%nat = Some (GetSafeNormal (vcross Edge01 Edge02)).
Proof.
  intros Hwf Hm Hj Edge01 Edge02.
  assert (HT : (1 <= noOfTriangles mesh)%nat).
  { rewrite <- (rawTriangles_length mesh Hwf).
    destruct (rawTriangles mesh) as [|t0 ts0]; [discriminate | cbn; lia]. }
  exists (S (noOfTriangles mesh)), (sectionOf mesh <$> seqZ 0 Num),
         (sectionOf mesh (m - 1)).
  split; [apply BeginPlay_enough_fuel; [done | lia]|].
  split; [intros fuel' secs' Hrun; by apply (BeginPlay_Done mesh Num fuel')|].
  split; [apply sections_lookup; lia|].
  rewrite sectionOf_buffers. cbn [Vertices Tangents Normals].
  replace (m - 1 + 1) with m by lia.
  pose proof (lookup_flat_map3 emittedPositions _ j 0 _ length_emittedPositions Hj) as P0.
  pose proof (lookup_flat_map3 emittedPositions _ j 1 _ length_emittedPositions Hj) as P1.
  pose proof (lookup_flat_map3 emittedPositions _ j 2 _ length_emittedPositions Hj) as P2.
  rewrite Nat.add_0_r in P0.
  split; [apply P0; lia|]. split; [apply P1; lia|]. split; [apply P2; lia|].
  intros r Hr. split.
  - rewrite (lookup_flat_map3 _ _ j r _ (fun t => length_replicate 3 _) Hj Hr).
    by apply lookup_replicate_2.
  - rewrite (lookup_flat_map3 _ _ j r _ (fun t => length_replicate 3 _) Hj Hr).
    by apply lookup_replicate_2.
Qed.

End PartitionFacts.

(* ===================================================================== *)
(** * The partition on concrete meshes *)

Lemma sampleMesh_well_formed : well_formed sampleMesh.
Proof.
  split; [reflexivity|]. split; [|reflexivity].
  repeat constructor; by vm_compute.
Qed.

Lemma sampleMesh_tags : 
  Forall (fun v => 1 <= getMaterial (data v) <= 2) (m_vecVertices sampleMesh).
Proof. repeat constructor; by vm_compute. Qed.

Lemma sampleMesh_run :
  BeginPlay 3 sampleMesh 2 = Done (sectionOf sampleMesh <$> [0; 1]).
Proof. vm_compute. reflexivity. Qed.

(** On the sample mesh each of the two sections receives one triangle. *)
Example BeginPlay_sampleMesh_indices :
  exists secs,
    BeginPlay 3 sampleMesh 2 = Done secs /\
    Indices <$> secs = [[0; 1; 2]; [0; 1; 2]] /\
    Vertices <$> secs =
      [[mkVec3 100 100 0; mkVec3 100 0 0; mkVec3 0 0 0];
       [mkVec3 0 100 0; mkVec3 100 100 0; mkVec3 0 0 0]].
Proof. eexists. split; [vm_compute; reflexivity|]. split; reflexivity. Qed.

(** C8. The mesh without indices is well formed, yet the partition reads
    outside the index array as soon as there is one material: the bound
    [getNoOfIndices() - 2] wraps around, the loop is entered with i = 0 and
    its first statement is [getIndex(2)]. *)
Theorem BeginPlay_faults_on_empty_mesh :
  well_formed emptyMesh /\
  forall fuel : nat, BeginPlay (S fuel) emptyMesh 1 = Fault.
Proof.
  split.
  - split; [reflexivity|]. split; [constructor | reflexivity].
  - intros fuel. unfold BeginPlay. change (seqZ 0 1) with [0].
    cbn [materialLoop]. rewrite indexLoop_short_mesh; [reflexivity|].
    cbn. lia.
Qed.

(** C3. The mesh without indices is well formed, has T = 0 triangles and
    (having no vertex) only tags in [1, 1]; yet with one material no run of
    the partition ends with sections, whatever the fuel: the loop bound wraps
    around and the first round reads index position 2 of an empty array.  So
    there are no M sections whose triangle counts could add up to T. *)
Theorem partition_yields_no_sections_on_empty_mesh :
  well_formed emptyMesh /\
  Forall (fun v => 1 <= getMaterial (data v) <= 1) (m_vecVertices emptyMesh) /\
  noOfTriangles emptyMesh = 0%nat /\
  forall (fuel : nat) (secs : list MeshSection),
    BeginPlay fuel emptyMesh 1 <> Done secs.
Proof.
  split; [|split; [|split]].
  - split; [reflexivity|]. split; [constructor | reflexivity].
  - constructor.
  - reflexivity.
  - intros fuel secs. unfold BeginPlay. change (seqZ 0 1) with [0].
    cbn [materialLoop]. destruct fuel as [|fuel]; [discriminate|].
    rewrite indexLoop_short_mesh; [discriminate|]. cbn. lia.
Qed.

Lemma partition_counts_and_indices_witness :
  well_formed sampleMesh /\
  exists fuel secs,
    BeginPlay fuel sampleMesh 2 = Done secs /\
    sum_list_with triangleCount secs = 2%nat.
Proof.
  split; [exact sampleMesh_well_formed|].
  destruct (partition_counts_and_indices sampleMesh 2
              sampleMesh_well_formed sampleMesh_tags) as [Hdone Hruns].
  destruct (Hruns ltac:(vm_compute; lia)) as (fuel & secs & Hrun).
  exists fuel, secs. split; [exact Hrun|].
  exact (proj1 (proj2 (Hdone fuel secs Hrun))).
Defined.

Lemma section_membership_by_third_vertex_witness :
  well_formed sampleMesh /\
  exists sec,
    (sectionOf sampleMesh <$> [0; 1]) !! Z.to_nat (2 - 1) = Some sec /\
    triangleCount sec = 1%nat.
Proof.
  split; [exact sampleMesh_well_formed|].
  destruct (section_membership_by_third_vertex sampleMesh 2
              sampleMesh_well_formed) as [Hdone _].
  destruct (Hdone 3%nat _ sampleMesh_run) as (Hsec & _).
  destruct (Hsec 2 ltac:(lia)) as (sec & Hlook & _ & Hcount & _).
  exists sec. split; [exact Hlook | exact Hcount].
Defined.

Lemma section_indices_consecutive_witness :
  well_formed sampleMesh /\
  Indices (sectionOf sampleMesh 0) =
    seqZ 0 (3 * Z.of_nat (triangleCount (sectionOf sampleMesh 0))).
Proof.
  split; [exact sampleMesh_well_formed|].
  destruct (section_indices_consecutive sampleMesh 2
              sampleMesh_well_formed) as [Hdone _].
  exact (proj1 (Hdone 3%nat _ sampleMesh_run 0%nat (sectionOf sampleMesh 0) eq_refl)).
Defined.

Lemma included_triangle_reversed_flat_witness :
  well_formed sampleMesh /\
  taggedWith 1 (rawTriangles sampleMesh) !! 0%nat =
    Some (sampleVertex 0 0 0 1, sampleVertex 1 0 0 1, sampleVertex 1 1 0 1) /\
  exists fuel secs sec,
    BeginPlay fuel sampleMesh 2 = Done secs /\
    secs !! 0%nat = Some sec /\
    Vertices sec !! 0%nat = Some (mkVec3 100 100 0) /\
    Vertices sec !! 2%nat = Some (mkVec3 0 0 0).
Proof.
  assert (Hj : taggedWith 1 (rawTriangles sampleMesh) !! 0%nat =
    Some (sampleVertex 0 0 0 1, sampleVertex 1 0 0 1, sampleVertex 1 1 0 1))
    by (vm_compute; reflexivity).
  split; [exact sampleMesh_well_formed|]. split; [exact Hj|].
  destruct (included_triangle_reversed_flat sampleMesh 2 1 0 _ _ _
              sampleMesh_well_formed ltac:(lia) Hj)
    as (fuel & secs & sec & Hrun & _ & Hsec & Hv2 & _ & Hv0 & _).
  exists fuel, secs, sec. split; [exact Hrun|]. split; [exact Hsec|].
  split; [exact Hv2 | exact Hv0].
Defined.

(* ===================================================================== *)
(** * Paging: the extent of what [pageIn] writes *)

Section PagingExtent.
Context `{Externals}.

(** The local coordinates the three loops of [pageIn] reach: the x and z
    loops span the region, the y loop stops at [getUpperY() / 2]. *)
Definition writtenBox (region : Region) (i j k : Z) : Prop :=
  0 <= i <= getUpperX region - getLowerX region /\
  0 <= j <= getUpperY region ÷ 2 - getLowerY region /\
  0 <= k <= getUpperZ region - getLowerZ region.

#[local] Instance writtenBox_dec region i j k : Decision (writtenBox region i j k).
Proof. unfold writtenBox. apply _. Defined.


(** Division by two that truncates toward zero, on both sides of zero. *)
Lemma quot2_nonneg (a : Z) : 0 <= a -> 0 <= a ÷ 2 <= a.
Proof.
  intros Ha. rewrite Z.quot_div_nonneg by lia.
  pose proof (Z.div_pos a 2). pose proof (Z.div_le_upper_bound a 2 a). lia.
Qed.

Lemma quot2_negative (a : Z) : a < 0 -> a < a ÷ 2 <= 0.
Proof.
  intros Ha. replace a with (- (- a)) at 2 3 by lia.
  rewrite Z.quot_opp_l by lia. rewrite Z.quot_div_nonneg by lia.
  pose proof (Z.div_pos (- a) 2).
  assert (- a / 2 < - a) by (apply Z.div_lt; lia). lia.
Qed.


(** X2. When one of the three loops has nothing to run over, [pageIn]
    returns pager and chunk untouched.  For the y loop this is the case as
    soon as the lower y bound exceeds half of the upper one, as for the
    region (0,32,0)-(31,63,31). *)
Theorem pageIn_empty_loop_is_identity (this : VoxelTerrainPager) (region : Region)
    (chunk : Chunk) :
  getUpperX region < getLowerX region \/
  getUpperY region ÷ 2 < getLowerY region \/
  getUpperZ region < getLowerZ region ->
  pageIn region (this, chunk) = (this, chunk).
Proof.
  intros Hempty. cbn [pageIn]. f_equal. apply map_eq. intros [[i j] k].
  rewrite fillChunk_lookup. rewrite decide_False; [reflexivity|].
  unfold visited. lia.
Qed.

(** X3. For a non-empty region whose upper y bound is negative, the y loop
    runs past the region: the row y = [getUpperY() / 2] is above the upper
    bound, so it is no coordinate of the region and its chunk-local row lies
    beyond the last row of the region, yet [pageIn] stores a voxel there. *)
Theorem pageIn_overshoots_negative_upper_y (this : VoxelTerrainPager)
    (region : Region) (chunk : Chunk) :
  getLowerX region <= getUpperX region ->
  getLowerY region <= getUpperY region ->
  getLowerZ region <= getUpperZ region ->
  getUpperY region < 0 ->
  let y := getUpperY region ÷ 2 in
  ~ inRegion region (getLowerX region) y (getLowerZ region) /\
  getUpperY region - getLowerY region < y - getLowerY region /\
  getVoxel 0 (y - getLowerY region) 0 (snd (pageIn region (this, chunk))) =
    Some (terrainVoxel (buildGraph this) (getLowerX region) y (getLowerZ region)).
Proof.
  intros Hx Hy Hz Hneg y.
  pose proof (quot2_negative _ Hneg) as Hq. fold y in Hq.
  split; [|split].
  - unfold inRegion. lia.
  - lia.
  - pose proof (fillChunk_visited (buildGraph this) region chunk
                  (getLowerX region) y (getLowerZ region)) as Hget.
    rewrite !Z.sub_diag in Hget. apply Hget. unfold visited. fold y. lia.
Qed.

(** X4. For a region whose upper y bound is not negative, [pageIn] stays
    inside the region: after a call on an empty chunk every stored voxel sits
    at a chunk-local coordinate between 0 and upper minus lower on each
    axis. *)
Theorem pageIn_stays_in_region (this : VoxelTerrainPager) (region : Region)
    (i j k : Z) :
  0 <= getUpperY region ->
  is_Some (snd (pageIn region (this, ∅)) !! (i, j, k)) ->
  0 <= i <= getUpperX region - getLowerX region /\
  0 <= j <= getUpperY region - getLowerY region /\
  0 <= k <= getUpperZ region - getLowerZ region.
Proof.
  intros Hy Hsome. cbn [pageIn snd] in Hsome. rewrite fillChunk_lookup in Hsome.
  destruct (decide (visited _ _ _ _)) as [Hv|_].
  - pose proof (quot2_nonneg _ Hy). unfold visited in Hv. lia.
  - rewrite lookup_empty in Hsome. by destruct Hsome.
Qed.

(** X6. The stored material determines the conditions that produced it: at
    every written coordinate, Grass means solid at or above the floored grass
    line, Dirt means solid in the three layers below it, Ore and Stone mean
    solid at least four layers below it with the ore field above 1.95 or
    not, and Air means not solid.  No other material id is ever stored. *)
Theorem written_material_characterisation (this : VoxelTerrainPager)
    (region : Region) (chunk : Chunk) (x y z : Z) :
  visited region x y z ->
  let g := buildGraph this in
  let solid := (0.5 <? evaluateScalar x y z (PerturbGradient g))%float in
  let grassZ := FloorToInt (evaluateScalar x y z (GrassZ g)) in
  let rich := (1.95 <? evaluateScalar x y z (OreFractal g))%float in
  exists v,
    getVoxel (x - getLowerX region) (y - getLowerY region) (z - getLowerZ region)
             (snd (pageIn region (this, chunk))) = Some v /\
    (getMaterial v = Grass <-> solid = true /\ grassZ <= z) /\
    (getMaterial v = Dirt <-> solid = true /\ grassZ - 3 <= z <= grassZ - 1) /\
    (getMaterial v = Ore <-> solid = true /\ z <= grassZ - 4 /\ rich = true) /\
    (getMaterial v = Stone <-> solid = true /\ z <= grassZ - 4 /\ rich = false) /\
    (getMaterial v = Air <-> solid = false) /\
    0 <= getMaterial v <= 4.
Proof.
  intros Hv g solid grassZ rich.
  exists (terrainVoxel g x y z). split.
  { cbn [pageIn snd]. by apply fillChunk_visited. }
  pose proof (terrainVoxel_material g x y z) as Hm. cbv zeta in Hm.
  fold solid grassZ rich in Hm. rewrite Hm. clear Hm.
  unfold Grass, Dirt, Ore, Stone, Air.
  assert (Hband : (z <=? grassZ - 1) && (grassZ - 1 - 3 <? z) =
                  bool_decide (grassZ - 3 <= z <= grassZ - 1)).
  { destruct (Z.leb_spec z (grassZ - 1)), (Z.ltb_spec (grassZ - 1 - 3) z);
      cbn [andb]; symmetry;
      first [apply bool_decide_eq_true; lia | apply bool_decide_eq_false; lia]. }
  rewrite Hband. clear Hband.
  destruct solid; [destruct (Z.leb_spec grassZ z);
    [|destruct (bool_decide_reflect (grassZ - 3 <= z <= grassZ - 1));
      [|destruct rich]]|];
    repeat split; intros;
    repeat match goal with Hc : _ /\ _ |- _ => destruct Hc end;
    first [lia | discriminate | reflexivity].
Qed.

(** X7. Chunks agree where they overlap: a global coordinate written by
    [pageIn] for two regions holds the same voxel in both chunks, each at its
    own chunk-local coordinate, whatever the chunks held before. *)
Theorem overlapping_regions_agree (this : VoxelTerrainPager) (r1 r2 : Region)
    (c1 c2 : Chunk) (x y z : Z) :
  visited r1 x y z -> visited r2 x y z ->
  getVoxel (x - getLowerX r1) (y - getLowerY r1) (z - getLowerZ r1)
           (snd (pageIn r1 (this, c1))) =
  getVoxel (x - getLowerX r2) (y - getLowerY r2) (z - getLowerZ r2)
           (snd (pageIn r2 (this, c2))).
Proof.
  intros H1 H2. cbn [pageIn snd].
  rewrite (fillChunk_visited _ r1) by done.
  by rewrite (fillChunk_visited _ r2).
Qed.




End PagingExtent.

(* ===================================================================== *)
(** * Partition: runs on meshes that need not be well formed *)

Section PartitionRuns.
Context `{Geometry}.

(** Every index refers to a vertex and every index position is reachable
    through the 32-bit loop counter; the number of indices need not be a
    multiple of three. *)
Definition indices_in_range (mesh : DecodedMesh) : Prop :=
  Forall (fun ix => 0 <= ix < Z.of_nat (length (m_vecVertices mesh)))
         (m_vecIndices mesh) /\
  Z.of_nat (length (m_vecIndices mesh)) < 2 ^ 32.

(** The mesh without the one or two indices left over after the last full
    triple. *)
Definition dropTrailing (mesh : DecodedMesh) : DecodedMesh :=
  mkMesh (m_vecVertices mesh)
         (take (3 * noOfTriangles mesh) (m_vecIndices mesh)).

Lemma well_formed_in_range (mesh : DecodedMesh) :
  well_formed mesh -> indices_in_range mesh.
Proof. by intros (_ & ? & ?). Qed.

Lemma noOfTriangles_bounds (mesh : DecodedMesh) :
  (3 * noOfTriangles mesh <= length (m_vecIndices mesh) < 3 * noOfTriangles mesh + 3)%nat.
Proof.
  unfold noOfTriangles.
  pose proof (Nat.div_mod_eq (length (m_vecIndices mesh)) 3).
  pose proof (Nat.mod_upper_bound (length (m_vecIndices mesh)) 3). lia.
Qed.

Lemma in_range_triangleAt (mesh : DecodedMesh) (k : nat) :
  indices_in_range mesh -> (k < noOfTriangles mesh)%nat ->
  is_Some (triangleAt mesh k).
Proof.
  intros (Hrange & _) Hk. pose proof (noOfTriangles_bounds mesh) as Hn.
  assert (Hv : forall pos, (pos < length (m_vecIndices mesh))%nat ->
                 is_Some (vertexAt mesh pos)).
  { intros pos Hpos. unfold vertexAt.
    destruct (lookup_lt_is_Some_2 _ _ Hpos) as [ix Hix]. rewrite Hix. cbn.
    rewrite Forall_lookup in Hrange. specialize (Hrange _ _ Hix).
    destruct (Z.ltb_spec ix 0); [lia|].
    apply lookup_lt_is_Some_2. lia. }
  unfold triangleAt.
  destruct (Hv (3 * k)%nat) as [v0 ->]; [lia|].
  destruct (Hv (3 * k + 1)%nat) as [v1 ->]; [lia|].
  destruct (Hv (3 * k + 2)%nat) as [v2 ->]; [lia|].
  by eexists.
Qed.

(** The loop bound on a mesh with at least three indices. *)
Lemma loop_bound_no_wrap (mesh : DecodedMesh) :
  (2 <= length (m_vecIndices mesh))%nat ->
  Z.of_nat (length (m_vecIndices mesh)) < 2 ^ 32 ->
  size_t (getNoOfIndices mesh - 2) = Z.of_nat (length (m_vecIndices mesh)) - 2.
Proof. intros Hlen Hsmall. unfold size_t, getNoOfIndices. apply Z.mod_small. lia. Qed.

(** [indexLoop_run] without the requirement that the index count be a
    multiple of three. *)
Lemma indexLoop_run_any_count (mesh : DecodedMesh) (Material : Z) (fuel : nat) :
  indices_in_range mesh -> (1 <= noOfTriangles mesh)%nat ->
  forall (k : nat) (s : MeshSection), (k <= noOfTriangles mesh)%nat ->
  indexLoop fuel mesh Material (Z.of_nat (3 * k)) s =
    if decide (noOfTriangles mesh - k < fuel)%nat
    then Done (foldl (emitTriangle Material) s
                 (trianglesFrom mesh k (noOfTriangles mesh - k)))
    else OutOfFuel.
Proof.
  intros Hin HT. pose proof (noOfTriangles_bounds mesh) as Hn.
  assert (Hsmall : Z.of_nat (length (m_vecIndices mesh)) < 2 ^ 32) by apply Hin.
  pose proof (loop_bound_no_wrap mesh ltac:(lia) Hsmall) as Hbound.
  set (T := noOfTriangles mesh) in *.
  induction fuel as [|fuel IH]; intros k s Hk.
  { rewrite decide_False by lia. reflexivity. }
  cbn [indexLoop]. rewrite Hbound.
  destruct (Z.ltb_spec (Z.of_nat (3 * k))
              (Z.of_nat (length (m_vecIndices mesh)) - 2)) as [Hlt|Hge].
  - assert (Hk' : (k < T)%nat) by lia.
    destruct (in_range_triangleAt mesh k Hin Hk') as [t Ht].
    rewrite (triangleBody_emit mesh Material k s t Ht) by lia.
    cbn [mbind Exec_bind].
    replace (u32 (Z.of_nat (3 * k) + 3)) with (Z.of_nat (3 * S k))
      by (unfold u32; rewrite Z.mod_small; lia).
    rewrite IH by lia.
    replace (T - k)%nat with (S (T - S k)) by lia.
    rewrite (trianglesFrom_cons _ _ _ _ Ht). cbn [foldl].
    destruct (decide (T - S k < fuel)%nat), (decide (S (T - S k) < S fuel)%nat);
      first [reflexivity | lia].
  - assert (k = T) as -> by lia.
    rewrite decide_True by lia. by rewrite Nat.sub_diag.
Qed.

(** The loop over materials when every pass over the indices ends with a
    section. *)
Lemma materialLoop_sections (mesh : DecodedMesh) (fuel : nat)
    (f : Z -> MeshSection) :
  (forall Material, indexLoop fuel mesh Material 0 emptySection = Done (f Material)) ->
  forall (count : nat) (secs : list MeshSection),
  materialLoop fuel mesh (seqZ (Z.of_nat (length secs)) (Z.of_nat count)) secs =
    Done (secs ++ (f <$> seqZ (Z.of_nat (length secs)) (Z.of_nat count))).
Proof.
  intros Hf. induction count as [|count IH]; intros secs.
  { cbn. by rewrite app_nil_r. }
  rewrite seqZ_cons by lia. cbn [materialLoop fmap list_fmap].
  rewrite Hf. cbn [mbind Exec_bind]. rewrite CreateMeshSection_append.
  replace (Z.succ (Z.of_nat (length secs)))
    with (Z.of_nat (length (secs ++ [f (Z.of_nat (length secs))])))
    by (rewrite length_app; cbn; lia).
  replace (Z.pred (Z.of_nat (S count))) with (Z.of_nat count) by lia.
  rewrite IH. by rewrite <- app_assoc.
Qed.

Lemma BeginPlay_sections (mesh : DecodedMesh) (fuel : nat) (Num : Z)
    (f : Z -> MeshSection) :
  (forall Material, indexLoop fuel mesh Material 0 emptySection = Done (f Material)) ->
  BeginPlay fuel mesh Num = Done (f <$> seqZ 0 Num).
Proof.
  intros Hf. unfold BeginPlay.
  destruct (Z.le_gt_cases Num 0) as [Hle|Hgt].
  { by rewrite seqZ_nil. }
  replace Num with (Z.of_nat (Z.to_nat Num)) by lia.
  apply (materialLoop_sections mesh fuel f Hf (Z.to_nat Num) []).
Qed.

Lemma indexLoop_section_any_count (mesh : DecodedMesh) (Material : Z) (fuel : nat) :
  indices_in_range mesh -> (1 <= noOfTriangles mesh)%nat ->
  indexLoop fuel mesh Material 0 emptySection =
    if decide (noOfTriangles mesh < fuel)%nat
    then Done (sectionOf mesh Material) else OutOfFuel.
Proof.
  intros Hin HT.
  pose proof (indexLoop_run_any_count mesh Material fuel Hin HT 0 emptySection) as Hrun.
  rewrite Nat.sub_0_r in Hrun. apply Hrun. lia.
Qed.

(** X9. On a mesh with at least one full triple whose indices are all in
    range, the partition never reads outside the index or vertex array.  Each
    pass over the index array ends after one test of the loop condition per
    triple plus a last one: with that much fuel the run ends with one section
    per material, with less (and at least one material) it is cut short. *)
Theorem partition_outcome_by_fuel (mesh : DecodedMesh) (Num : Z) (fuel : nat) :
  indices_in_range mesh -> (1 <= noOfTriangles mesh)%nat ->
  BeginPlay fuel mesh Num <> Fault /\
  ((noOfTriangles mesh < fuel)%nat \/ Num <= 0 ->
     BeginPlay fuel mesh Num = Done (sectionOf mesh <$> seqZ 0 Num)) /\
  ((fuel <= noOfTriangles mesh)%nat /\ 0 < Num ->
     BeginPlay fuel mesh Num = OutOfFuel).
Proof.
  intros Hin HT.
  assert (Hdone : (noOfTriangles mesh < fuel)%nat \/ Num <= 0 ->
            BeginPlay fuel mesh Num = Done (sectionOf mesh <$> seqZ 0 Num)).
  { intros [Hfuel|Hnum].
    - apply BeginPlay_sections. intros Material.
      rewrite indexLoop_section_any_count by done. by rewrite decide_True.
    - unfold BeginPlay. by rewrite seqZ_nil. }
  assert (Hcut : (fuel <= noOfTriangles mesh)%nat /\ 0 < Num ->
            BeginPlay fuel mesh Num = OutOfFuel).
  { intros [Hfuel Hnum]. unfold BeginPlay. rewrite seqZ_cons by lia.
    cbn [materialLoop]. rewrite indexLoop_section_any_count by done.
    rewrite decide_False by lia. reflexivity. }
  split; [|split; assumption].
  destruct (decide (noOfTriangles mesh < fuel)%nat) as [Hfuel|Hfuel].
  { rewrite Hdone by (by left). discriminate. }
  destruct (Z.le_gt_cases Num 0) as [Hle|Hgt].
  { rewrite Hdone by (by right). discriminate. }
  rewrite Hcut by lia. discriminate.
Qed.

(** X10. With exactly two indices the loop bound is zero: no index and no
    vertex is read, whatever the two indices are, and every material gets an
    empty section. *)
Theorem two_indices_give_empty_sections (mesh : DecodedMesh) (Num : Z) (fuel : nat) :
  length (m_vecIndices mesh) = 2%nat ->
  BeginPlay (S fuel) mesh Num = Done (replicate (Z.to_nat Num) emptySection).
Proof.
  intros Hlen.
  rewrite (BeginPlay_sections mesh (S fuel) Num (fun _ => emptySection)).
  - f_equal. rewrite (const_fmap _ _ emptySection) by done.
    by rewrite length_seqZ.
  - intros Material. cbn [indexLoop].
    unfold getNoOfIndices. rewrite Hlen. reflexivity.
Qed.

Lemma dropTrailing_noOfTriangles (mesh : DecodedMesh) :
  noOfTriangles (dropTrailing mesh) = noOfTriangles mesh.
Proof.
  pose proof (noOfTriangles_bounds mesh) as Hn.
  unfold noOfTriangles at 1. cbn [dropTrailing m_vecIndices].
  rewrite length_take_le by lia.
  rewrite Nat.mul_comm. apply Nat.div_mul. lia.
Qed.

Lemma dropTrailing_triangleAt (mesh : DecodedMesh) (k : nat) :
  (k < noOfTriangles mesh)%nat ->
  triangleAt (dropTrailing mesh) k = triangleAt mesh k.
Proof.
  intros Hk.
  assert (Hv : forall pos, (pos < 3 * noOfTriangles mesh)%nat ->
                 vertexAt (dropTrailing mesh) pos = vertexAt mesh pos).
  { intros pos Hpos. unfold vertexAt. cbn [dropTrailing m_vecIndices m_vecVertices].
    by rewrite lookup_take_lt. }
  unfold triangleAt. by rewrite !Hv by lia.
Qed.

Lemma dropTrailing_trianglesFrom (mesh : DecodedMesh) (k n : nat) :
  (k + n <= noOfTriangles mesh)%nat ->
  trianglesFrom (dropTrailing mesh) k n = trianglesFrom mesh k n.
Proof.
  revert k. induction n as [|n IH]; intros k Hk; [reflexivity|].
  unfold trianglesFrom in *. cbn -[triangleAt].
  rewrite dropTrailing_triangleAt by lia. rewrite IH by lia. reflexivity.
Qed.

Lemma dropTrailing_sectionOf (mesh : DecodedMesh) (Material : Z) :
  sectionOf (dropTrailing mesh) Material = sectionOf mesh Material.
Proof.
  unfold sectionOf, rawTriangles. rewrite dropTrailing_noOfTriangles.
  by rewrite dropTrailing_trianglesFrom.
Qed.

Lemma dropTrailing_well_formed (mesh : DecodedMesh) :
  indices_in_range mesh -> well_formed (dropTrailing mesh).
Proof.
  intros (Hrange & Hsmall). pose proof (noOfTriangles_bounds mesh) as Hn.
  unfold well_formed. cbn [dropTrailing m_vecIndices m_vecVertices].
  rewrite length_take_le by lia. split; [|split].
  - rewrite Nat.mul_comm. apply Nat.Div0.mod_mul.
  - by apply Forall_take.
  - lia.
Qed.

(** X11. One or two indices left over after the last full triple are never
    read: on a mesh with at least one full triple and all indices in range,
    the partition ends with the same sections as on the mesh cut back to its
    full triples, which is well formed. *)
Theorem trailing_indices_are_ignored (mesh : DecodedMesh) (Num : Z) (fuel : nat) :
  indices_in_range mesh -> (1 <= noOfTriangles mesh < fuel)%nat ->
  well_formed (dropTrailing mesh) /\
  BeginPlay fuel mesh Num = BeginPlay fuel (dropTrailing mesh) Num /\
  BeginPlay fuel mesh Num = Done (sectionOf (dropTrailing mesh) <$> seqZ 0 Num).
Proof.
  intros Hin HT.
  pose proof (dropTrailing_well_formed mesh Hin) as Hwf.
  assert (Hrun : BeginPlay fuel mesh Num =
                 Done (sectionOf (dropTrailing mesh) <$> seqZ 0 Num)).
  { apply BeginPlay_sections. intros Material.
    rewrite indexLoop_section_any_count by (done || lia).
    rewrite decide_True by lia. by rewrite dropTrailing_sectionOf. }
  split; [exact Hwf|]. split; [|exact Hrun].
  rewrite Hrun. symmetry. apply BeginPlay_enough_fuel; [exact Hwf|].
  rewrite dropTrailing_noOfTriangles. lia.
Qed.

(** Reading a triple whose third index refers to no vertex. *)
Lemma triangleBody_bad_third_index (mesh : DecodedMesh) (Material : Z) (k : nat)
    (s : MeshSection) :
  (3 * k + 2 < length (m_vecIndices mesh))%nat ->
  Z.of_nat (3 * k + 2) < 2 ^ 32 ->
  vertexAt mesh (3 * k + 2) = None ->
  triangleBody mesh Material (Z.of_nat (3 * k)) s = Fault.
Proof.
  intros Hlen Hsmall Hbad. unfold triangleBody.
  replace (u32 (Z.of_nat (3 * k) + 2)) with (Z.of_nat (3 * k + 2))
    by (unfold u32; rewrite Z.mod_small; lia).
  destruct (lookup_lt_is_Some_2 _ _ Hlen) as [ix Hix].
  unfold getIndex. rewrite (at_index_Done _ _ _ Hix). cbn [mbind Exec_bind].
  unfold vertexAt in Hbad. rewrite Hix in Hbad. cbn in Hbad.
  unfold getVertex, at_index.
  destruct (ix <? 0); [reflexivity|]. by rewrite Hbad.
Qed.

(** X12. An index that refers to no vertex is not rejected but read through:
    when the third index of the [k]-th triple is out of range and the triples
    before it resolve, the very first pass over the index array reaches that
    triple and reads outside the vertex array. *)
Theorem out_of_range_third_index_faults (mesh : DecodedMesh) (Num : Z)
    (k fuel : nat) :
  Z.of_nat (length (m_vecIndices mesh)) < 2 ^ 32 ->
  (3 * k + 2 < length (m_vecIndices mesh))%nat ->
  (forall k', (k' < k)%nat -> is_Some (triangleAt mesh k')) ->
  vertexAt mesh (3 * k + 2) = None ->
  0 < Num -> (k < fuel)%nat ->
  BeginPlay fuel mesh Num = Fault.
Proof.
  intros Hsmall Hlen Hbefore Hbad Hnum Hfuel.
  pose proof (loop_bound_no_wrap mesh ltac:(lia) Hsmall) as Hbound.
  assert (Hloop : forall (f k' : nat) (s : MeshSection),
            (k' <= k)%nat -> (k - k' < f)%nat ->
            indexLoop f mesh 0 (Z.of_nat (3 * k')) s = Fault).
  { induction f as [|f IH]; intros k' s Hk' Hf; [lia|].
    cbn [indexLoop]. rewrite Hbound.
    destruct (Z.ltb_spec (Z.of_nat (3 * k'))
                (Z.of_nat (length (m_vecIndices mesh)) - 2)); [|lia].
    destruct (decide (k' = k)) as [->|Hne].
    - by rewrite triangleBody_bad_third_index by (done || lia).
    - destruct (Hbefore k' ltac:(lia)) as [t Ht].
      rewrite (triangleBody_emit mesh 0 k' s t Ht) by lia.
      cbn [mbind Exec_bind].
      replace (u32 (Z.of_nat (3 * k') + 3)) with (Z.of_nat (3 * S k'))
        by (unfold u32; rewrite Z.mod_small; lia).
      apply IH; lia. }
  unfold BeginPlay. rewrite seqZ_cons by lia. cbn [materialLoop].
  pose proof (Hloop fuel 0%nat emptySection ltac:(lia) ltac:(lia)) as Hfirst.
  change (Z.of_nat (3 * 0)) with 0 in Hfirst. rewrite Hfirst. reflexivity.
Qed.

Lemma rawTriangles_vertices (mesh : DecodedMesh) (v0 v1 v2 : Vertex) :
  (v0, v1, v2) ∈ rawTriangles mesh ->
  v0 ∈ m_vecVertices mesh /\ v1 ∈ m_vecVertices mesh /\ v2 ∈ m_vecVertices mesh.
Proof.
  unfold rawTriangles, trianglesFrom. intros Ht.
  apply list_elem_of_omap in Ht as (k & _ & Hk).
  apply triangleAt_Some in Hk as (H0 & H1 & H2).
  assert (Hin : forall pos v, vertexAt mesh pos = Some v -> v ∈ m_vecVertices mesh).
  { intros pos v Hv. unfold vertexAt in Hv.
    destruct (m_vecIndices mesh !! pos) as [ix|]; [|discriminate].
    cbn in Hv. destruct (ix <? 0); [discriminate|].
    apply list_elem_of_lookup. by eexists. }
  split; [|split]; eapply Hin; eassumption.
Qed.

(** X13. The partition invents no geometry: every position in the vertex
    buffer of a section of a finished run is the position of a vertex of the
    decoded mesh, scaled by 100. *)
Theorem section_positions_come_from_mesh (mesh : DecodedMesh) (Num : Z)
    (fuel : nat) (secs : list MeshSection) (sec : MeshSection) (p : FVector) :
  well_formed mesh ->
  BeginPlay fuel mesh Num = Done secs ->
  sec ∈ secs -> p ∈ Vertices sec ->
  exists v, v ∈ m_vecVertices mesh /\
            p = vscale (FPolyVoxVector (position v)) 100.
Proof.
  intros Hwf Hrun Hsec Hp. apply BeginPlay_Done in Hrun as ->; [|done].
  apply list_elem_of_fmap in Hsec as (Material & -> & _).
  rewrite sectionOf_buffers in Hp. cbn [Vertices] in Hp.
  apply list_elem_of_In, in_flat_map in Hp as ([[v0 v1] v2] & Ht & Hp).
  apply list_elem_of_In in Ht. unfold taggedWith in Ht.
  apply list_elem_of_filter in Ht as [_ Ht].
  apply rawTriangles_vertices in Ht as (H0 & H1 & H2).
  cbn [emittedPositions] in Hp. apply list_elem_of_In in Hp.
  unfold worldPosition in Hp.
  apply elem_of_cons in Hp as [Hp|Hp]; [by exists v2|].
  apply elem_of_cons in Hp as [Hp|Hp]; [by exists v1|].
  apply list_elem_of_singleton in Hp. by exists v0.
Qed.

(** X8. In every section of a finished run the four buffers have the same
    length: one index, one normal and one tangent per vertex. *)
Theorem section_buffers_same_length (mesh : DecodedMesh) (Num : Z)
    (fuel : nat) (secs : list MeshSection) :
  well_formed mesh ->
  BeginPlay fuel mesh Num = Done secs ->
  Forall (fun sec =>
            length (Indices sec) = length (Vertices sec) /\
            length (Normals sec) = length (Vertices sec) /\
            length (Tangents sec) = length (Vertices sec)) secs.
Proof.
  intros Hwf Hrun. apply BeginPlay_Done in Hrun as ->; [|done].
  apply Forall_fmap, Forall_forall. intros Material _. unfold compose.
  rewrite sectionOf_buffers. cbn [Indices Vertices Normals Tangents].
  rewrite !(length_flat_map3 _ _ (fun t => length_replicate 3 _)).
  rewrite (length_flat_map3 _ _ length_emittedPositions), length_seqZ.
  repeat split; lia.
Qed.

(** X14. On a well-formed mesh with at least one triangle the partition
    finishes, always with the same sections, and a material id in [1, Num]
    that tags no triangle gets its section all the same, with four empty
    buffers.  (Without a triangle the run faults and there are no sections.) *)
Theorem unused_material_gives_empty_section (mesh : DecodedMesh) (Num m : Z) :
  well_formed mesh ->
  (1 <= noOfTriangles mesh)%nat ->
  1 <= m <= Num ->
  taggedWith m (rawTriangles mesh) = [] ->
  exists fuel secs,
    BeginPlay fuel mesh Num = Done secs /\
    (forall fuel' secs', BeginPlay fuel' mesh Num = Done secs' -> secs' = secs) /\
    length secs = Z.to_nat Num /\
    secs !! Z.to_nat (m - 1) = Some emptySection.
Proof.
  intros Hwf HT Hm Hnone.
  exists (S (noOfTriangles mesh)), (sectionOf mesh <$> seqZ 0 Num).
  split; [apply BeginPlay_enough_fuel; [done | lia]|].
  split; [intros fuel' secs' Hrun; by apply (BeginPlay_Done mesh Num fuel')|].
  split; [by rewrite length_fmap, length_seqZ|].
  rewrite sections_lookup by lia. f_equal.
  rewrite sectionOf_buffers. replace (m - 1 + 1) with m by lia.
  by rewrite Hnone.
Qed.

End PartitionRuns.

(* ===================================================================== *)
(** * Further concrete inputs *)

(** The region of the chunk above the first one along y, for chunks of side
    32. *)
Definition upperChunkRegion : Region := mkRegion 0 32 0 31 63 31.

(** A region below the origin along y. *)
Definition negativeRegion : Region := mkRegion 0 (-4) 0 0 (-1) 0.

(** The sample mesh followed by one index that starts no full triple. *)
Definition trailingMesh : DecodedMesh (H := sampleGeometry) :=
  mkMesh (H := sampleGeometry) (m_vecVertices sampleMesh) [0; 1; 2; 0; 2; 3; 1].

(** Two indices and no vertex at all. *)
Definition twoIndexMesh : DecodedMesh (H := sampleGeometry) :=
  mkMesh (H := sampleGeometry) [] [7; 9].

(** The sample mesh with the last index pointing past its four vertices. *)
Definition badIndexMesh : DecodedMesh (H := sampleGeometry) :=
  mkMesh (H := sampleGeometry) (m_vecVertices sampleMesh) [0; 1; 2; 0; 2; 9].

Lemma sampleMesh_in_range : indices_in_range sampleMesh.
Proof. apply well_formed_in_range, sampleMesh_well_formed. Qed.

Lemma trailingMesh_in_range : indices_in_range trailingMesh.
Proof. split; [repeat constructor; by vm_compute | reflexivity]. Qed.

Lemma sampleMesh_first_section_positions :
  Vertices (sectionOf sampleMesh 0) = [mkVec3 100 100 0; mkVec3 100 0 0; mkVec3 0 0 0].
Proof. vm_compute. reflexivity. Qed.

Lemma pageIn_empty_loop_is_identity_witness :
  pageIn (H := sampleExternals) upperChunkRegion (defaultPager, ∅) = (defaultPager, ∅).
Proof.
  apply (pageIn_empty_loop_is_identity (H := sampleExternals)).
  right. left. reflexivity.
Defined.

Lemma pageIn_overshoots_negative_upper_y_witness :
  ~ inRegion negativeRegion 0 0 0 /\
  exists v,
    getVoxel 0 4 0 (snd (pageIn (H := sampleExternals) negativeRegion (defaultPager, ∅)))
      = Some v.
Proof.
  destruct (pageIn_overshoots_negative_upper_y (H := sampleExternals)
              defaultPager negativeRegion ∅)
    as (Hout & _ & Hget); try (by vm_compute).
  split; [exact Hout|]. eexists. exact Hget.
Defined.

Lemma pageIn_stays_in_region_witness :
  is_Some (snd (pageIn (H := sampleExternals) sampleRegion (defaultPager, ∅)) !! (1, 1, 1)) /\
  0 <= 1 <= 3 - 0 /\ 0 <= 1 <= 3 - 0 /\ 0 <= 1 <= 3 - 0.
Proof.
  assert (Hsome : is_Some (snd (pageIn (H := sampleExternals) sampleRegion
                                  (defaultPager, ∅)) !! (1, 1, 1)))
    by (vm_compute; by eexists).
  split; [exact Hsome|].
  apply (pageIn_stays_in_region (H := sampleExternals) defaultPager sampleRegion 1 1 1).
  - by vm_compute.
  - exact Hsome.
Defined.

Lemma written_material_characterisation_witness :
  visited sampleRegion 1 1 1 /\
  exists v,
    getVoxel 1 1 1 (snd (pageIn (H := sampleExternals) sampleRegion (defaultPager, ∅)))
      = Some v /\
    getMaterial v = Dirt.
Proof.
  assert (Hv : visited sampleRegion 1 1 1) by (repeat split; by vm_compute).
  split; [exact Hv|].
  destruct (written_material_characterisation (H := sampleExternals)
              defaultPager sampleRegion ∅ 1 1 1 Hv) as (v & Hget & _ & Hdirt & _).
  exists v. split; [exact Hget|].
  apply Hdirt. split; [reflexivity|]. by vm_compute.
Defined.

Lemma overlapping_regions_agree_witness :
  getVoxel 1 1 1 (snd (pageIn (H := sampleExternals) sampleRegion (defaultPager, ∅))) =
  getVoxel 0 0 0 (snd (pageIn (H := sampleExternals) (mkRegion 1 1 1 2 2 2)
                          (defaultPager, ∅))).
Proof.
  apply (overlapping_regions_agree (H := sampleExternals) defaultPager
           sampleRegion (mkRegion 1 1 1 2 2 2) ∅ ∅ 1 1 1);
    repeat split; by vm_compute.
Defined.

Lemma section_buffers_same_length_witness :
  well_formed sampleMesh /\
  Forall (fun sec =>
            length (Indices sec) = length (Vertices sec) /\
            length (Normals sec) = length (Vertices sec) /\
            length (Tangents sec) = length (Vertices sec))
         (sectionOf sampleMesh <$> [0; 1]).
Proof.
  split; [exact sampleMesh_well_formed|].
  exact (section_buffers_same_length sampleMesh 2 3 _
           sampleMesh_well_formed sampleMesh_run).
Defined.

Lemma partition_outcome_by_fuel_witness :
  indices_in_range sampleMesh /\
  BeginPlay 3 sampleMesh 2 <> Fault /\
  BeginPlay 2 sampleMesh 2 = OutOfFuel.
Proof.
  split; [exact sampleMesh_in_range|].
  destruct (partition_outcome_by_fuel sampleMesh 2 3 sampleMesh_in_range
              ltac:(vm_compute; lia)) as (Hsafe & _ & _).
  destruct (partition_outcome_by_fuel sampleMesh 2 2 sampleMesh_in_range
              ltac:(vm_compute; lia)) as (_ & _ & Hcut).
  split; [exact Hsafe|]. apply Hcut. split; [vm_compute; lia | lia].
Defined.

Lemma two_indices_give_empty_sections_witness :
  length (m_vecIndices twoIndexMesh) = 2%nat /\
  BeginPlay 1 twoIndexMesh 3 = Done (replicate 3 emptySection).
Proof.
  split; [reflexivity|].
  exact (two_indices_give_empty_sections twoIndexMesh 3 0 eq_refl).
Defined.

Lemma trailing_indices_are_ignored_witness :
  indices_in_range trailingMesh /\
  BeginPlay 3 trailingMesh 2 = BeginPlay 3 (dropTrailing trailingMesh) 2.
Proof.
  split; [exact trailingMesh_in_range|].
  exact (proj1 (proj2 (trailing_indices_are_ignored trailingMesh 2 3
                         trailingMesh_in_range ltac:(vm_compute; lia)))).
Defined.

Lemma out_of_range_third_index_faults_witness :
  vertexAt badIndexMesh 5 = None /\
  BeginPlay 2 badIndexMesh 1 = Fault.
Proof.
  split; [reflexivity|].
  apply (out_of_range_third_index_faults badIndexMesh 1 1 2).
  - reflexivity.
  - vm_compute. lia.
  - intros k' Hk'. assert (k' = 0%nat) as -> by lia. vm_compute. by eexists.
  - reflexivity.
  - lia.
  - lia.
Defined.

Lemma section_positions_come_from_mesh_witness :
  well_formed sampleMesh /\
  exists v, v ∈ m_vecVertices sampleMesh /\
            mkVec3 100 100 0 = vscale (FPolyVoxVector (position v)) 100.
Proof.
  split; [exact sampleMesh_well_formed|].
  apply (section_positions_come_from_mesh sampleMesh 2 3 _ (sectionOf sampleMesh 0)
           (mkVec3 100 100 0) sampleMesh_well_formed sampleMesh_run).
  - apply list_elem_of_here.
  - rewrite sampleMesh_first_section_positions. apply list_elem_of_here.
Defined.

Lemma unused_material_gives_empty_section_witness :
  well_formed sampleMesh /\
  taggedWith 3 (rawTriangles sampleMesh) = [] /\
  exists fuel secs,
    BeginPlay fuel sampleMesh 3 = Done secs /\
    secs !! 2%nat = Some emptySection.
Proof.
  assert (Hnone : taggedWith 3 (rawTriangles sampleMesh) = [])
    by (vm_compute; reflexivity).
  split; [exact sampleMesh_well_formed|]. split; [exact Hnone|].
  destruct (unused_material_gives_empty_section sampleMesh 3 3
              sampleMesh_well_formed ltac:(vm_compute; lia) ltac:(lia) Hnone)
    as (fuel & secs & Hrun & _ & _ & Hsec).
  exists fuel, secs. split; [exact Hrun | exact Hsec].
Defined.
